(** * SonicSeeker: the transcription route handler

    A shallow embedding of the [POST] handler of the transcription API
    route (a Next.js route module) and of the helper
    [findPythonExecutable] that lives beside it.

    The handler is effectful JavaScript: it reads the process environment,
    touches the file system, spawns subprocesses through
    [child_process.exec] and writes to the console.  It is modelled as a
    state-and-completion monad over an explicit [State] (file system,
    console, the two [let]-bound path variables, and a trace of the system
    calls that were made); everything the host decides (clock, environment
    variables, success of system calls, what the spawned commands do) is
    an oracle of the [Env] record.

    The [path] module is Node's [path.posix]: the model covers hosts whose
    [process.platform] is not ['win32'], the branch in which the
    interpreter candidates are [['python3', 'python']]. *)

From Stdlib Require Import ZArith NArith Ascii String List Lia.
From Stdlib Require Import DecimalString DecimalN DecimalPos.
From stdpp Require Import base tactics option list gmap strings.

Local Open Scope string_scope.
Local Open Scope list_scope.

#[local] Set Warnings "-clear-no-such-hyp".

(** ** JavaScript strings *)

Module Js.

(** The line feed of the template literal at handler line 151. *)
Definition nl : string := String "010"%char "".

(** The double-quote character, as a one-character string. *)
Definition dquote : string := String "034"%char "".

(** [ToBoolean] on a string: only the empty string is falsy. *)
Definition truthy (s : string) : bool := negb (s =? "").

(** [String.prototype.startsWith]. *)
Fixpoint startsWith (pat s : string) : bool :=
  match pat, s with
  | "", _ => true
  | String a pat', String b s' => if Ascii.eqb a b then startsWith pat' s' else false
  | String _ _, "" => false
  end.

(** [String.prototype.includes]. *)
Fixpoint includes (pat s : string) : bool :=
  startsWith pat s ||
  match s with
  | "" => false
  | String _ s' => includes pat s'
  end.

(** [s.slice(n)]. *)
Fixpoint drop (n : nat) (s : string) : string :=
  match n, s with
  | O, _ => s
  | S n', String _ s' => drop n' s'
  | S _, "" => ""
  end.

(** [s.slice(0, n)]. *)
Fixpoint take (n : nat) (s : string) : string :=
  match n, s with
  | S n', String c s' => String c (take n' s')
  | _, _ => ""
  end.

(** [String.prototype.endsWith]. *)
Definition endsWith (pat s : string) : bool :=
  (String.length pat <=? String.length s)%nat &&
  (drop (String.length s - String.length pat) s =? pat).

(** [s.replace(pat, rep)] with a string pattern: only the first
    occurrence is replaced.  [rep] is used literally; the one
    replacement text of the handler has no [$] in it. *)
Fixpoint replace (pat rep s : string) : string :=
  if startsWith pat s then rep +:+ drop (String.length pat) s
  else match s with
       | "" => ""
       | String c s' => String c (replace pat rep s')
       end.

(** [Array.prototype.join]. *)
Definition join (sep : string) (parts : list string) : string :=
  String.concat sep parts.

(** Template-literal rendering of a non-negative integer number, as
    [Date.now()] produces: its decimal digits. *)
Definition of_N (n : N) : string := NilZero.string_of_uint (N.to_uint n).

End Js.

(** ** Node's [path.posix] *)

Module Path.

Definition is_slash (c : ascii) : bool := Ascii.eqb c "/"%char.
Definition is_dot (c : ascii) : bool := Ascii.eqb c "."%char.

(** The pieces of a path between its separators; [n] separators give
    [n + 1] pieces, some of them possibly empty. *)
Fixpoint segments (p : string) : list string :=
  match p with
  | "" => [""]
  | String c p' =>
      if is_slash c then "" :: segments p'
      else match segments p' with
           | seg :: rest => String c seg :: rest
           | [] => [String c ""]
           end
  end.

(** One round of the loop of [normalizeString]: [res] is the result so
    far, kept as a stack of segments with the last one on top. *)
Definition push_segment (allowAboveRoot : bool) (res : list string) (seg : string)
  : list string :=
  if (seg =? "") || (seg =? ".") then res
  else if seg =? ".." then
    match res with
    | top :: below =>
        if top =? ".." then (if allowAboveRoot then ".." :: res else res)
        else below
    | [] => if allowAboveRoot then [".."] else []
    end
  else seg :: res.

Definition normalizeString (p : string) (allowAboveRoot : bool) : string :=
  Js.join "/" (rev (fold_left (push_segment allowAboveRoot) (segments p) [])).

Definition isAbsolute (p : string) : bool :=
  match p with String c _ => is_slash c | "" => false end.

Definition trailingSeparator (p : string) : bool := Js.endsWith "/" p.

(** [path.normalize]. *)
Definition normalize (p : string) : string :=
  if p =? "" then "."
  else
    let r := normalizeString p (negb (isAbsolute p)) in
    if r =? "" then
      (if isAbsolute p then "/" else if trailingSeparator p then "./" else ".")
    else
      let r' := if trailingSeparator p then r +:+ "/" else r in
      if isAbsolute p then "/" +:+ r' else r'.

(** [path.join]: the non-empty arguments, joined by a separator and
    normalized. *)
Definition join (args : list string) : string :=
  match filter (λ a, Js.truthy a = true) args with
  | [] => "."
  | parts => normalize (Js.join "/" parts)
  end.

(** The last non-empty segment of a path, trailing separators skipped. *)
Definition last_segment (p : string) : string :=
  fold_left (λ acc seg, if seg =? "" then acc else seg) (segments p) "".

(** The run of separators a path ends with. *)
Fixpoint all_slashes (p : string) : bool :=
  match p with
  | "" => true
  | String c p' => is_slash c && all_slashes p'
  end.

Fixpoint trailing_slashes (p : string) : string :=
  match p with
  | "" => ""
  | String c p' => if all_slashes p then p else trailing_slashes p'
  end.

(** Cut a segment at its last dot: [(before, from the dot on)]. *)
Fixpoint split_last_dot (s : string) : option (string * string) :=
  match s with
  | "" => None
  | String c s' =>
      match split_last_dot s' with
      | Some (pre, ext) => Some (String c pre, ext)
      | None => if is_dot c then Some ("", s) else None
      end
  end.

(** [path.extname]: from the last dot of the last segment on; empty when
    there is no dot, when the dot opens the segment, and for [".."]. *)
Definition extname (p : string) : string :=
  let base := last_segment p in
  match split_last_dot base with
  | None => ""
  | Some (pre, ext) =>
      if (pre =? "") || (base =? "..") then "" else ext
  end.

(** [path.basename(p, suffix)].  The three outcomes of the comparison
    loop: the suffix matched in full (cut it, unless it is the whole
    segment), the segment ran out while still matching (the slice then
    runs to the end of the path), a character differed. *)
Definition basename (p suffix : string) : string :=
  let base := last_segment p in
  if Js.truthy suffix && (String.length suffix <=? String.length p)%nat then
    if suffix =? p then ""
    else if Js.endsWith suffix base then
      (if base =? suffix then base
       else Js.take (String.length base - String.length suffix) base)
    else if Js.endsWith base suffix then base +:+ trailing_slashes p
    else base
  else base.

End Path.

(** ** Values the handler works with *)

(** The uploaded [File]: its [name] and its bytes. *)
Record MediaFile := { mf_name : string; mf_data : string }.

(** What [request.formData()] resolves to: the two fields the handler
    reads with [formData.get]. *)
Record FormData := {
  fd_mediaFile : option MediaFile;
  fd_diarize : option string;
}.

(** How a child process ended, as [exec] reports it on its error object. *)
Record ExitInfo := {
  exit_code : option Z;
  exit_killed : bool;
  exit_signal : option string;
}.

(** Thrown values: the error [exec] rejects with, which carries the
    command and the captured streams, and every other [Error]. *)
Inductive JsError :=
| ExecError (message cmd stdout stderr : string) (info : ExitInfo)
| PlainError (name message : string).

Definition err_message (e : JsError) : string :=
  match e with
  | ExecError m _ _ _ _ => m
  | PlainError _ m => m
  end.

Definition err_stderr (e : JsError) : option string :=
  match e with
  | ExecError _ _ _ err _ => Some err
  | PlainError _ _ => None
  end.

Definition err_stdout (e : JsError) : option string :=
  match e with
  | ExecError _ _ out _ _ => Some out
  | PlainError _ _ => None
  end.

Definition err_info (e : JsError) : option ExitInfo :=
  match e with
  | ExecError _ _ _ _ i => Some i
  | PlainError _ _ => None
  end.

(** [String(error)], that is [Error.prototype.toString]. *)
Definition err_toString (e : JsError) : string :=
  let name := match e with ExecError _ _ _ _ _ => "Error" | PlainError n _ => n end in
  let msg := err_message e in
  if msg =? "" then name
  else if name =? "" then msg
  else name +:+ ": " +:+ msg.

(** [a || b] on two strings, and [a || b] with a possibly undefined [a]. *)
Definition js_or (a b : string) : string := if Js.truthy a then a else b.

Definition js_or_undef (a : option string) (b : string) : string :=
  match a with
  | Some s => js_or s b
  | None => b
  end.

(** The options object handed to [exec]. *)
Record ExecOptions := { timeout : N; maxBuffer : N }.

Inductive ExecResult :=
| ExecOk (stdout stderr : string)
| ExecFail (e : JsError).

Inductive WriteOutcome :=
| Wrote
| WriteFailed (message : string) (partial : option string).

(** File-system entries. *)
Inductive Entry := Dir | File (data : string).

(** Console output: the level and the arguments of each call. *)
Inductive Level := LLog | LWarn | LError.
Inductive LogArg := AStr (s : string) | AErr (e : JsError).
Record LogEntry := { log_level : Level; log_args : list LogArg }.

(** System calls, in the order they were made. *)
Inductive Event :=
| EvMkdir (p : string)
| EvWriteFile (p : string) (ok : bool)
| EvExec (cmd : string) (opts : option ExecOptions)
| EvReadFile (p : string)
| EvUnlink (p : string) (ok : bool).

Section Handler.

(** The type of parsed JSON documents is left open; [JSON.parse] comes
    with the environment. *)
Context {JSON : Type}.

Inductive Body :=
| ErrorBody (error : string) (details : option string)
| TranscriptionBody (transcription : JSON).

(** [NextResponse.json(body, { status })]. *)
Record Response := { status : N; body : Body }.

Record Request := { req_formData : FormData + JsError }.

(** Everything the host decides. *)
Record Env := {
  env_HUGGING_FACE_TOKEN : option string;
  env_now : N;
  env_tmpdir : string;
  env_cwd : string;
  env_mkdir_error : string → option string;
  env_writeFile : string → WriteOutcome;
  env_exec : string → option ExecOptions → gmap string Entry
             → ExecResult * gmap string Entry;
  env_readFile_error : string → option string;
  env_unlink_error : string → option string;
  env_JSON_parse : string → JSON + string;
}.

(** The mutable state a run of the handler sees: the world outside and
    the two [let] variables of lines 49 and 50. *)
Record State := {
  st_fs : gmap string Entry;
  st_console : list LogEntry;
  st_trace : list Event;
  st_tempFilePath : option string;
  st_outputJsonPath : option string;
}.

Definition with_fs (f : gmap string Entry) (s : State) : State :=
  {| st_fs := f; st_console := st_console s; st_trace := st_trace s;
     st_tempFilePath := st_tempFilePath s; st_outputJsonPath := st_outputJsonPath s |}.

Definition with_log (e : LogEntry) (s : State) : State :=
  {| st_fs := st_fs s; st_console := st_console s ++ [e]; st_trace := st_trace s;
     st_tempFilePath := st_tempFilePath s; st_outputJsonPath := st_outputJsonPath s |}.

Definition with_event (e : Event) (s : State) : State :=
  {| st_fs := st_fs s; st_console := st_console s; st_trace := st_trace s ++ [e];
     st_tempFilePath := st_tempFilePath s; st_outputJsonPath := st_outputJsonPath s |}.

Definition with_tempFilePath (p : string) (s : State) : State :=
  {| st_fs := st_fs s; st_console := st_console s; st_trace := st_trace s;
     st_tempFilePath := Some p; st_outputJsonPath := st_outputJsonPath s |}.

Definition with_outputJsonPath (p : string) (s : State) : State :=
  {| st_fs := st_fs s; st_console := st_console s; st_trace := st_trace s;
     st_tempFilePath := st_tempFilePath s; st_outputJsonPath := Some p |}.

Definition initial (f : gmap string Entry) : State :=
  {| st_fs := f; st_console := []; st_trace := [];
     st_tempFilePath := None; st_outputJsonPath := None |}.

(** *** Statements: state, [return] and [throw] *)

Inductive Completion (A : Type) :=
| Normal (a : A)
| Returned (r : Response)
| Thrown (e : JsError).
Arguments Normal {A} a.
Arguments Returned {A} r.
Arguments Thrown {A} e.

Definition M (A : Type) : Type := State → Completion A * State.

Definition pure {A} (a : A) : M A := λ s, (Normal a, s).
Definition bind {A B} (m : M A) (k : A → M B) : M B :=
  λ s, match m s with
       | (Normal a, s') => k a s'
       | (Returned r, s') => (Returned r, s')
       | (Thrown e, s') => (Thrown e, s')
       end.
Definition return_ {A} (r : Response) : M A := λ s, (Returned r, s).
Definition throw {A} (e : JsError) : M A := λ s, (Thrown e, s).

(** [try { m } catch (e) { h e }]. *)
Definition try_catch {A} (m : M A) (h : JsError → M A) : M A :=
  λ s, match m s with
       | (Thrown e, s') => h e s'
       | other => other
       end.

(** [try { m } finally { f }]: the completion of [m] stands unless [f]
    itself returns or throws. *)
Definition try_finally {A} (m : M A) (f : M unit) : M A :=
  λ s, match m s with
       | (c, s') =>
           match f s' with
           | (Normal _, s'') => (c, s'')
           | (Returned r, s'') => (Returned r, s'')
           | (Thrown e, s'') => (Thrown e, s'')
           end
       end.

Definition when (b : bool) (m : M unit) : M unit := if b then m else pure tt.

Definition get_state : M State := λ s, (Normal s, s).
Definition modify (f : State → State) : M unit := λ s, (Normal tt, f s).

End Handler.

Arguments Body : clear implicits.
Arguments Response : clear implicits.
Arguments Env : clear implicits.
Arguments Completion : clear implicits.
Arguments M : clear implicits.
Arguments Normal {JSON A} a.
Arguments Returned {JSON A} r.
Arguments Thrown {JSON A} e.

Global Instance M_ret {JSON} : MRet (M JSON) := λ A, pure.
Global Instance M_bind {JSON} : MBind (M JSON) := λ A B k m, bind m k.

(** ** System calls *)

Section Effects.

Context {JSON : Type} (env : Env JSON).

Definition console (lvl : Level) (args : list LogArg) : M JSON unit :=
  modify (with_log {| log_level := lvl; log_args := args |}).

(** [fs.existsSync]. *)
Definition existsSync (p : string) : M JSON bool :=
  s ← get_state; pure (bool_decide (is_Some (st_fs s !! p))).

(** [fs.mkdirSync(p, { recursive: true })]. *)
Definition mkdirSync (p : string) : M JSON unit :=
  modify (with_event (EvMkdir p));;
  match env_mkdir_error env p with
  | Some msg => throw (PlainError "Error" msg)
  | None => modify (λ s, with_fs (<[p := Dir]> (st_fs s)) s)
  end.

(** [writeFile] of [fs/promises].  A failed write may leave a part of
    the file behind. *)
Definition writeFile (p data : string) : M JSON unit :=
  s ← get_state;
  match st_fs s !! p, env_writeFile env p with
  | Some Dir, _ =>
      modify (with_event (EvWriteFile p false));;
      throw (PlainError "Error" "EISDIR: illegal operation on a directory")
  | _, Wrote =>
      modify (with_event (EvWriteFile p true));;
      modify (λ s, with_fs (<[p := File data]> (st_fs s)) s)
  | _, WriteFailed msg partial =>
      modify (with_event (EvWriteFile p false));;
      match partial with
      | Some d => modify (λ s, with_fs (<[p := File d]> (st_fs s)) s)
      | None => pure tt
      end;;
      throw (PlainError "Error" msg)
  end.

(** [readFile(p, 'utf-8')] of [fs/promises]. *)
Definition readFile (p : string) : M JSON string :=
  modify (with_event (EvReadFile p));;
  s ← get_state;
  match st_fs s !! p with
  | None => throw (PlainError "Error" "ENOENT: no such file or directory")
  | Some Dir => throw (PlainError "Error" "EISDIR: illegal operation on a directory")
  | Some (File d) =>
      match env_readFile_error env p with
      | Some msg => throw (PlainError "Error" msg)
      | None => pure d
      end
  end.

(** [unlink] of [fs/promises]. *)
Definition unlink (p : string) : M JSON unit :=
  s ← get_state;
  match st_fs s !! p, env_unlink_error env p with
  | Some (File _), None =>
      modify (with_event (EvUnlink p true));;
      modify (λ s, with_fs (delete p (st_fs s)) s)
  | Some (File _), Some msg =>
      modify (with_event (EvUnlink p false));;
      throw (PlainError "Error" msg)
  | Some Dir, _ =>
      modify (with_event (EvUnlink p false));;
      throw (PlainError "Error" "EISDIR: illegal operation on a directory")
  | None, _ =>
      modify (with_event (EvUnlink p false));;
      throw (PlainError "Error" "ENOENT: no such file or directory")
  end.

(** [execPromise = promisify(exec)]: resolves with the two captured
    streams, rejects with the error of [exec]. *)
Definition execPromise (cmd : string) (opts : option ExecOptions)
  : M JSON (string * string) :=
  modify (with_event (EvExec cmd opts));;
  s ← get_state;
  match env_exec env cmd opts (st_fs s) with
  | (ExecOk out err, fs') => modify (with_fs fs');; pure (out, err)
  | (ExecFail e, fs') => modify (with_fs fs');; throw e
  end.

(** [JSON.parse]; a [SyntaxError] on malformed text. *)
Definition JSON_parse (text : string) : M JSON JSON :=
  match env_JSON_parse env text with
  | inl v => pure v
  | inr msg => throw (PlainError "SyntaxError" msg)
  end.

(** [await request.formData()]. *)
Definition formData (request : Request) : M JSON FormData :=
  match req_formData request with
  | inl fd => pure fd
  | inr e => throw e
  end.

End Effects.

(** ** The program *)

Section Program.

Context {JSON : Type} (env : Env JSON).

(** *** [findPythonExecutable] (lines 20 to 45) *)

Definition candidates : list string := ["python3"; "python"].

(** [`"${s}"`]: the text between two double-quote characters. *)
Definition quoted (s : string) : string := Js.dquote +:+ s +:+ Js.dquote.

Definition probe_command (cmd : string) : string := quoted cmd +:+ " --version".

Fixpoint findPythonExecutable_from (cands : list string) : M JSON string :=
  match cands with
  | [] =>
      console LError [AStr "Could not find Python executable."];;
      throw (PlainError "Error" "Python executable not found.")
  | cmd :: rest =>
      try_catch
        (execPromise env (probe_command cmd) None;;
         console LLog [AStr ("Found Python at: " +:+ cmd)];;
         pure cmd)
        (λ _, findPythonExecutable_from rest)
  end.

Definition findPythonExecutable : M JSON string :=
  findPythonExecutable_from candidates.


(** *** The paths of a job (lines 70, 77, 82 and 88) *)

Definition tempDir : string := Path.join [env_tmpdir env; "whisper-uploads"].

Definition tempFilePath_of (now : N) (name : string) : string :=
  Path.join [tempDir; Js.of_N now +:+ "-" +:+ name].

Definition outputJsonPath_of (input : string) : string :=
  Path.join [tempDir; Path.basename input (Path.extname input) +:+ ".json"].

Definition scriptPath : string :=
  Path.join [env_cwd env; "src"; "whisper"; "transcribe.py"].

(** *** The command (lines 95 to 114) *)

Definition commandParts (pythonPath input output : string)
    (diarize : bool) (hfToken : option string) : list string :=
  [ quoted pythonPath;
    quoted scriptPath;
    "--input " +:+ quoted input;
    "--output-json " +:+ quoted output ]
  ++ (if diarize then
        "--diarize" ::
        match hfToken with
        | Some tok => if Js.truthy tok then ["--hf-token " +:+ quoted tok] else []
        | None => []
        end
      else []).

Definition command (pythonPath input output : string)
    (diarize : bool) (hfToken : option string) : string :=
  Js.join " " (commandParts pythonPath input output diarize hfToken).

(** [!hfToken]. *)
Definition no_token (hfToken : option string) : bool :=
  match hfToken with
  | Some tok => negb (Js.truthy tok)
  | None => true
  end.

(** The options of line 120. *)
Definition exec_options : ExecOptions :=
  {| timeout := 600000; maxBuffer := 10 * 1024 * 1024 |}.

Definition respond (st : N) (b : Body JSON) : Response JSON := {| status := st; body := b |}.

(** *** Running the engine and reading its output (lines 119 to 155) *)

Definition errorDetails_of (execError : JsError) : string :=
  js_or_undef (err_stderr execError)
    (js_or_undef (err_stdout execError)
       (js_or (err_message execError) "Unknown execution error")).

Definition run_engine (cmd output : string) : M JSON unit :=
  try_catch
    ('(stdout, stderr) ← execPromise env cmd (Some exec_options);
     when (Js.truthy stderr)
       (console LWarn [AStr "Python script stderr:"; AStr stderr]);;
     console LLog [AStr "Python script stdout:"; AStr stdout];;
     created ← existsSync output;
     if negb created then
       console LError [AStr "Output JSON file was not created by the script."];;
       console LError [AStr "Script stderr:"; AStr stderr];;
       return_ (respond 500
         (ErrorBody "Transcription failed: Output file not generated."
                    (Some (js_or stderr stdout))))
     else
       transcriptionResult ← readFile env output;
       transcriptionData ← JSON_parse env transcriptionResult;
       return_ (respond 200 (TranscriptionBody transcriptionData)))
    (λ execError,
       console LError [AStr "Error executing Python script:"; AErr execError];;
       let errorDetails := errorDetails_of execError in
       present ← existsSync output;
       errorDetails ←
         (if (present : bool) then
            try_catch
              (partialResult ← readFile env output;
               pure (errorDetails +:+ Js.nl +:+ "Partial output: " +:+ partialResult))
              (λ _, pure errorDetails)
          else pure errorDetails);
       return_ (respond 500
         (ErrorBody "Failed to execute transcription script." (Some errorDetails)))).

(** The two warnings of the degraded mode (lines 64 and 109). *)
Definition token_warning : LogEntry :=
  {| log_level := LWarn;
     log_args := [AStr "Diarization requested, but HUGGING_FACE_TOKEN environment variable is not set."] |}.

Definition proceed_warning : LogEntry :=
  {| log_level := LWarn;
     log_args := [AStr "Proceeding with diarization request but without HF token."] |}.

Definition warn (e : LogEntry) : M JSON unit := modify (with_log e).

(** *** The [try] block of [POST] (lines 52 to 156) *)

(** What the first half of the block hands to the second. *)
Record Job := {
  job_input : string;
  job_output : string;
  job_pythonPath : string;
  job_diarize : bool;
}.

(** Lines 53 to 85: the form, the workspace, the input artifact, the
    interpreter. *)
Definition stage (request : Request) : M JSON Job :=
  form ← formData request;
  let diarize := bool_decide (fd_diarize form = Some "true") in
  match fd_mediaFile form with
  | None => return_ (respond 400 (ErrorBody "No media file uploaded" None))
  | Some mediaFile =>
      let hfToken := env_HUGGING_FACE_TOKEN env in
      when (diarize && no_token hfToken)
        (warn token_warning);;
      present ← existsSync tempDir;
      when (negb present) (mkdirSync env tempDir);;
      let input := tempFilePath_of (env_now env) (mf_name mediaFile) in
      modify (with_tempFilePath input);;
      writeFile env input (mf_data mediaFile);;
      console LLog [AStr ("Temporary file saved to: " +:+ input)];;
      let output := outputJsonPath_of input in
      modify (with_outputJsonPath output);;
      pythonPath ← findPythonExecutable;
      pure {| job_input := input; job_output := output;
              job_pythonPath := pythonPath; job_diarize := diarize |}
  end.

Definition job_command (job : Job) : string :=
  command (job_pythonPath job) (job_input job) (job_output job)
          (job_diarize job) (env_HUGGING_FACE_TOKEN env).

(** Lines 94 to 155: the command, its log line, the engine. *)
Definition launch (job : Job) : M JSON unit :=
  let hfToken := env_HUGGING_FACE_TOKEN env in
  when (job_diarize job && no_token hfToken)
    (warn proceed_warning);;
  let cmd := job_command job in
  console LLog [AStr ("Executing command: " +:+
    Js.replace (default "dummy-token" hfToken) "[HF_TOKEN_HIDDEN]" cmd)];;
  run_engine cmd (job_output job).

Definition POST_try (request : Request) : M JSON unit :=
  job ← stage request;
  present ← existsSync scriptPath;
  if negb present then
    console LError [AStr ("Transcription script not found at: " +:+ scriptPath)];;
    return_ (respond 500 (ErrorBody "Transcription script not found on server" None))
  else launch job.

(** *** The outer [catch] (lines 157 to 159) *)

Definition POST_catch (error : JsError) : M JSON unit :=
  console LError [AStr "API Error:"; AErr error];;
  return_ (respond 500
    (ErrorBody "An unexpected error occurred."
               (Some (js_or (err_message error) (err_toString error))))).

(** *** The [finally] block (lines 160 to 178) *)

Definition cleanup_one (what : string) (var : option string) : M JSON unit :=
  match var with
  | Some p =>
      present ← (if Js.truthy p then existsSync p else pure false);
      when present
        (try_catch
           (unlink env p;;
            console LLog [AStr ("Cleaned up temporary " +:+ what +:+ " file: " +:+ p)])
           (λ e,
              console LError
                [AStr ("Error cleaning up temporary " +:+ what +:+ " file " +:+ p +:+ ":");
                 AErr e]))
  | None => pure tt
  end.

Definition POST_finally : M JSON unit :=
  s ← get_state;
  cleanup_one "input" (st_tempFilePath s);;
  s ← get_state;
  cleanup_one "output" (st_outputJsonPath s).

(** *** [POST] *)

Definition POST_body (request : Request) : M JSON unit :=
  try_catch (POST_try request) POST_catch.

(** What the promise returned by an [async] function settles to. *)
Inductive Settled :=
| Resolved (r : option (Response JSON))
| Rejected (e : JsError).

Definition settle (c : Completion JSON unit) : Settled :=
  match c with
  | Normal _ => Resolved None
  | Returned r => Resolved (Some r)
  | Thrown e => Rejected e
  end.

(** Lines 49 and 50: both variables start as [null]. *)
Definition declare_paths (s : State) : State :=
  {| st_fs := st_fs s; st_console := st_console s; st_trace := st_trace s;
     st_tempFilePath := None; st_outputJsonPath := None |}.

Definition POST (request : Request) (s : State) : Settled * State :=
  match try_finally (POST_body request) POST_finally (declare_paths s) with
  | (c, s') => (settle c, s')
  end.

End Program.

(** ** How [/bin/sh] cuts a command line into words

    [exec] hands the command string to [/bin/sh -c].  This is the quoting
    part of the shell's word splitting: blanks separate words, a
    backslash protects the next character, single quotes protect
    everything up to the next single quote, double quotes protect blanks
    (inside them a backslash only protects the four characters that stay
    special there).  Operators and expansions are not interpreted: they
    stay ordinary characters of the word they sit in. *)

Module Shell.

Inductive Mode := Plain | InDouble | InSingle.

Definition is_blank (c : ascii) : bool :=
  Ascii.eqb c " "%char || Ascii.eqb c "009"%char || Ascii.eqb c "010"%char.

Definition is_dquote (c : ascii) : bool := Ascii.eqb c "034"%char.
Definition is_squote (c : ascii) : bool := Ascii.eqb c "039"%char.
Definition is_backslash (c : ascii) : bool := Ascii.eqb c "092"%char.

(** The characters a backslash still escapes inside double quotes. *)
Definition escapable_in_double (c : ascii) : bool :=
  is_dquote c || is_backslash c || Ascii.eqb c "$"%char || Ascii.eqb c "`"%char.

Definition snoc (cur : option string) (c : ascii) : option string :=
  Some (default "" cur +:+ String c "").

Definition flush (cur : option string) : list string :=
  match cur with Some w => [w] | None => [] end.

Fixpoint words_go (mode : Mode) (cur : option string) (s : string) : list string :=
  match s with
  | "" => flush cur
  | String c s' =>
      match mode with
      | Plain =>
          if is_blank c then flush cur ++ words_go Plain None s'
          else if is_dquote c then words_go InDouble (Some (default "" cur)) s'
          else if is_squote c then words_go InSingle (Some (default "" cur)) s'
          else if is_backslash c then
            match s' with
            | String d s'' => words_go Plain (snoc cur d) s''
            | "" => flush (snoc cur c)
            end
          else words_go Plain (snoc cur c) s'
      | InDouble =>
          if is_dquote c then words_go Plain cur s'
          else if is_backslash c then
            match s' with
            | String d s'' =>
                if escapable_in_double d then words_go InDouble (snoc cur d) s''
                else words_go InDouble (snoc (snoc cur c) d) s''
            | "" => flush (snoc cur c)
            end
          else words_go InDouble (snoc cur c) s'
      | InSingle =>
          if is_squote c then words_go Plain cur s'
          else words_go InSingle (snoc cur c) s'
      end
  end.

Definition words (command : string) : list string := words_go Plain None command.

End Shell.

(** ** Observations on a run *)

Section Observations.

Context {JSON : Type}.

(** The texts a console call prints: strings as they are, an error with
    its message and, for the error of [exec], its [cmd], [stdout] and
    [stderr] properties. *)
Definition arg_texts (a : LogArg) : list string :=
  match a with
  | AStr s => [s]
  | AErr (ExecError m c out err _) => [m; c; out; err]
  | AErr (PlainError n m) => [n; m]
  end.

Definition entry_mentions (secret : string) (e : LogEntry) : bool :=
  existsb (Js.includes secret) (flat_map arg_texts (log_args e)).

Definition console_mentions (secret : string) (l : list LogEntry) : bool :=
  existsb (entry_mentions secret) l.

(** The [error] and [details] members of a response body. *)
Definition error_of (r : Response JSON) : option string :=
  match body r with
  | ErrorBody e _ => Some e
  | TranscriptionBody _ => None
  end.

Definition details_of (r : Response JSON) : option string :=
  match body r with
  | ErrorBody _ d => d
  | TranscriptionBody _ => None
  end.

Definition response_of (o : Settled (JSON := JSON)) : option (Response JSON) :=
  match o with
  | Resolved r => r
  | Rejected _ => None
  end.

(** The error object [exec] rejects with when the child ends with a
    nonzero status, a signal or a timeout: its message repeats the whole
    command line, followed by what the child wrote to [stderr]. *)
Definition exec_error (cmd stdout stderr : string) (info : ExitInfo) : JsError :=
  ExecError ("Command failed: " +:+ cmd +:+ Js.nl +:+ stderr) cmd stdout stderr info.

Definition exited (code : Z) : ExitInfo :=
  {| exit_code := Some code; exit_killed := false; exit_signal := None |}.

(** What [exec] reports when its [timeout] option fired. *)
Definition timed_out : ExitInfo :=
  {| exit_code := None; exit_killed := true; exit_signal := Some "SIGTERM" |}.

End Observations.

(** ** Vocabulary of the statements *)

(** Every character of a string passes a test. *)
Fixpoint every (P : ascii → bool) (s : string) : bool :=
  match s with
  | "" => true
  | String c s' => P c && every P s'
  end.

Definition is_digit (c : ascii) : bool :=
  (Ascii.leb "0" c && Ascii.leb c "9")%char.

(** No separator, no dot, digits only. *)
Definition slash_free (s : string) : bool := every (λ c, negb (Path.is_slash c)) s.
Definition dot_free (s : string) : bool := every (λ c, negb (Path.is_dot c)) s.
Definition digits (s : string) : bool := every is_digit s.

(** A file name without its last extension: what is left of the last dot,
    the whole name when it has no dot. *)
Definition stem (name : string) : string :=
  match Path.split_last_dot name with
  | Some (pre, _) => pre
  | None => name
  end.

(** A segment that [normalizeString] keeps as it is. *)
Definition plain_segment (s : string) : bool :=
  slash_free s && negb (s =? "") && negb (s =? ".") && negb (s =? "..").

(** What [path.join] puts in front of a plain last segment. *)
Definition dir_prefix (dir : string) : string :=
  (if Path.isAbsolute dir then "/" else "") +:+
  match fold_left (Path.push_segment (negb (Path.isAbsolute dir))) (Path.segments dir) [] with
  | [] => ""
  | top :: below => Js.join "/" (rev (top :: below)) +:+ "/"
  end.

(** [s'] was reached from [s]: console and trace only grow. *)
Definition extends (s s' : State) : Prop :=
  (∃ l, st_console s' = st_console s ++ l) ∧
  (∃ t, st_trace s' = st_trace s ++ t).

(** Two states that differ at most in what was written to the console. *)
Definition same_world (s s' : State) : Prop :=
  st_fs s = st_fs s' ∧ st_trace s = st_trace s' ∧
  st_tempFilePath s = st_tempFilePath s' ∧
  st_outputJsonPath s = st_outputJsonPath s'.

(** Two programs that go the same way from two such states: same
    completion, and again two such states. *)
Definition alike {JSON A} (m m' : M JSON A) : Prop :=
  ∀ s s', same_world s s' →
    fst (m s) = fst (m' s') ∧ same_world (snd (m s)) (snd (m' s')).

(** The event of probing one candidate of the interpreter search. *)
Definition probe_event (cand : string) : Event :=
  EvExec (probe_command cand) None.

(** Whatever a program hands on when it completes normally has a
    property. *)
Definition yields {JSON A} (P : A → Prop) (m : M JSON A) : Prop :=
  ∀ s a s1, m s = (Normal a, s1) → P a.

(** Whatever response a program returns has a property. *)
Definition answers {JSON A} (P : Response JSON → Prop) (m : M JSON A) : Prop :=
  ∀ s r s1, m s = (Returned r, s1) → P r.

(** The six shapes of a response of the handler. *)
Definition expected {JSON} (r : Response JSON) : Prop :=
  (∃ v, r = respond 200 (TranscriptionBody v))
  ∨ r = respond 400 (ErrorBody "No media file uploaded" None)
  ∨ r = respond 500 (ErrorBody "Transcription script not found on server" None)
  ∨ (∃ d, r = respond 500
            (ErrorBody "Transcription failed: Output file not generated." (Some d)))
  ∨ (∃ d, r = respond 500
            (ErrorBody "Failed to execute transcription script." (Some d)))
  ∨ (∃ d, r = respond 500 (ErrorBody "An unexpected error occurred." (Some d))).

(** No character that ends a double-quoted shell word or is special
    inside one. *)
Definition quote_safe (s : string) : bool :=
  every (λ c, negb (Shell.escapable_in_double c)) s.

(** A probe of the interpreter search. *)
Definition is_probe (e : Event) : Prop :=
  ∃ cand, cand ∈ candidates ∧ e = EvExec (probe_command cand) None.

(** What holds on every way out of [stage]: the only file written is
    the one the first variable names, nothing was deleted, the only
    commands run are interpreter probes, and neither variable holds an
    empty path. *)
Definition framed (s1 : State) : Prop :=
  (∀ p ok, EvWriteFile p ok ∈ st_trace s1 → st_tempFilePath s1 = Some p) ∧
  (∀ p ok, EvUnlink p ok ∉ st_trace s1) ∧
  (∀ cmd o, EvExec cmd o ∈ st_trace s1 →
     o = None ∧ ∃ cand, cand ∈ candidates ∧ cmd = probe_command cand) ∧
  (∀ p, st_tempFilePath s1 = Some p → Js.truthy p = true) ∧
  (∀ p, st_outputJsonPath s1 = Some p → Js.truthy p = true).

Section Vocabulary.

Context {JSON : Type} (env : Env JSON).

(** The text appended to the details of a failure: the content of the
    output artifact when it is there and can be read. *)
Definition partial_output (f : gmap string Entry) (output : string) : string :=
  match f !! output with
  | Some (File d) =>
      match env_readFile_error env output with
      | None => Js.nl +:+ "Partial output: " +:+ d
      | Some _ => ""
      end
  | _ => ""
  end.

(** What is known of a job that [stage] hands over: it is the one the
    request describes, and the two path variables hold its paths. *)
Definition staged (request : Request) (job : Job) (s1 : State) : Prop :=
  ∃ form mediaFile,
    req_formData request = inl form ∧ fd_mediaFile form = Some mediaFile ∧
    job_diarize job = bool_decide (fd_diarize form = Some "true") ∧
    job_input job = tempFilePath_of env (env_now env) (mf_name mediaFile) ∧
    job_output job = outputJsonPath_of env (job_input job) ∧
    job_pythonPath job ∈ candidates ∧
    st_tempFilePath s1 = Some (job_input job) ∧
    st_outputJsonPath s1 = Some (job_output job) ∧
    (job_diarize job = true → no_token (env_HUGGING_FACE_TOKEN env) = true →
     token_warning ∈ st_console s1).

(** The same host with another fate for [unlink]. *)
Definition with_unlink (u : string → option string) : Env JSON :=
  {| env_HUGGING_FACE_TOKEN := env_HUGGING_FACE_TOKEN env;
     env_now := env_now env; env_tmpdir := env_tmpdir env; env_cwd := env_cwd env;
     env_mkdir_error := env_mkdir_error env; env_writeFile := env_writeFile env;
     env_exec := env_exec env; env_readFile_error := env_readFile_error env;
     env_unlink_error := u; env_JSON_parse := env_JSON_parse env |}.

(** The search for an interpreter as a function of the file system: the
    first candidate whose probe succeeds, if any, and the file system the
    probes leave behind. *)
Fixpoint first_answering (cands : list string) (fs : gmap string Entry)
  : option string * gmap string Entry :=
  match cands with
  | [] => (None, fs)
  | cand :: rest =>
      match env_exec env (probe_command cand) None fs with
      | (ExecOk _ _, fs') => (Some cand, fs')
      | (ExecFail _, fs') => first_answering rest fs'
      end
  end.

(** The same host with another value of [HUGGING_FACE_TOKEN]. *)
Definition with_token (t : option string) : Env JSON :=
  {| env_HUGGING_FACE_TOKEN := t;
     env_now := env_now env; env_tmpdir := env_tmpdir env; env_cwd := env_cwd env;
     env_mkdir_error := env_mkdir_error env; env_writeFile := env_writeFile env;
     env_exec := env_exec env; env_readFile_error := env_readFile_error env;
     env_unlink_error := env_unlink_error env; env_JSON_parse := env_JSON_parse env |}.

(** The same host on which reading fails as [u] says. *)
Definition with_readFile_error (u : string → option string) : Env JSON :=
  {| env_HUGGING_FACE_TOKEN := env_HUGGING_FACE_TOKEN env;
     env_now := env_now env; env_tmpdir := env_tmpdir env; env_cwd := env_cwd env;
     env_mkdir_error := env_mkdir_error env; env_writeFile := env_writeFile env;
     env_exec := env_exec env; env_readFile_error := u;
     env_unlink_error := env_unlink_error env; env_JSON_parse := env_JSON_parse env |}.


End Vocabulary.

(** ** A sample host

    A host on which the handler can be run: time 1, [/tmp] and [/app],
    system calls that succeed, an interpreter found at the first probe,
    and an engine given as a parameter. *)

(** Parsed documents of the sample host: the three JSON literals. *)
Inductive Literal := LNull | LTrue | LFalse.

Definition parse_literal (text : string) : Literal + string :=
  if text =? "null" then inl LNull
  else if text =? "true" then inl LTrue
  else if text =? "false" then inl LFalse
  else inr "Unexpected token".

Definition Engine : Type :=
  string → gmap string Entry → ExecResult * gmap string Entry.

Definition sample_exec (engine : Engine)
    (cmd : string) (opts : option ExecOptions) (f : gmap string Entry)
  : ExecResult * gmap string Entry :=
  if cmd =? probe_command "python3" then (ExecOk "Python 3.12.0" "", f)
  else engine cmd f.

Definition sample_env (token : option string) (engine : Engine) : Env Literal :=
  {| env_HUGGING_FACE_TOKEN := token;
     env_now := 1;
     env_tmpdir := "/tmp";
     env_cwd := "/app";
     env_mkdir_error := λ _, None;
     env_writeFile := λ _, Wrote;
     env_exec := sample_exec engine;
     env_readFile_error := λ _, None;
     env_unlink_error := λ _, None;
     env_JSON_parse := parse_literal |}.

(** A host without an interpreter: the shell finds no command at all. *)
Definition bare_env : Env Literal :=
  {| env_HUGGING_FACE_TOKEN := None;
     env_now := 1;
     env_tmpdir := "/tmp";
     env_cwd := "/app";
     env_mkdir_error := λ _, None;
     env_writeFile := λ _, Wrote;
     env_exec := λ cmd _ f,
       (ExecFail (exec_error cmd "" "/bin/sh: 1: command not found" (exited 127)), f);
     env_readFile_error := λ _, None;
     env_unlink_error := λ _, None;
     env_JSON_parse := parse_literal |}.

(** The file system before the request: the worker script is in place. *)
Definition sample_fs : gmap string Entry :=
  <["/app/src/whisper/transcribe.py" := File "import whisper"]> ∅.

Definition empty_fs : gmap string Entry := ∅.

Definition sample_request (name : string) (diarize : option string) : Request :=
  {| req_formData :=
       inl {| fd_mediaFile := Some {| mf_name := name; mf_data := "RIFF" |};
              fd_diarize := diarize |} |}.

(** The job of an upload called [a.wav] on the sample host. *)
Definition sample_job (diarize : bool) : Job :=
  {| job_input := "/tmp/whisper-uploads/1-a.wav";
     job_output := "/tmp/whisper-uploads/1-a.json";
     job_pythonPath := "python3";
     job_diarize := diarize |}.

(** Engines: one that writes a document to the output path of
    [sample_job], one that writes nothing, one that fails. *)
Definition engine_writes (doc : string) : Engine :=
  λ _ f, (ExecOk "done" "", <["/tmp/whisper-uploads/1-a.json" := File doc]> f).

Definition engine_idle (stdout stderr : string) : Engine :=
  λ _ f, (ExecOk stdout stderr, f).

Definition engine_fails (stdout stderr : string) (info : ExitInfo) : Engine :=
  λ cmd f, (ExecFail (exec_error cmd stdout stderr info), f).

Definition engine_fails_leaving (doc : string) (info : ExitInfo) : Engine :=
  λ cmd f, (ExecFail (exec_error cmd "" "Traceback" info),
            <["/tmp/whisper-uploads/1-a.json" := File doc]> f).

(** An upload whose name carries two double quotes. *)
Definition quoting_name : string :=
  "a" +:+ Js.dquote +:+ " --diarize " +:+ Js.dquote +:+ "b.wav".

(** ** Tactics *)

(** Unfolding the system calls and the monad down to state passing. *)
Ltac unfold_calls :=
  unfold cleanup_one, unlink, readFile, writeFile, mkdirSync, execPromise,
         existsSync, console, warn, JSON_parse, formData, when in *;
  unfold modify, get_state, try_catch, throw, return_, mbind, M_bind, bind, pure in *.

Ltac list_mem :=
  intros; rewrite ?elem_of_app, ?elem_of_cons, ?elem_of_nil in *; naive_solver.

Ltac mem_inv :=
  repeat match goal with
         | H : _ ∈ [] |- _ => apply elem_of_nil in H; destruct H
         | H : _ ∈ _ :: _ |- _ => apply elem_of_cons in H; destruct H as [H|H]
         | H : _ ∈ _ ++ _ |- _ => apply elem_of_app in H; destruct H as [H|H]
         end; simplify_eq.

Ltac run_cases := repeat (case_match; simplify_eq/=).

Ltac solve_extends :=
  split; simpl;
  first [ exists []; by rewrite app_nil_r
        | eexists; rewrite <- ?app_assoc; reflexivity ].

Ltac use_decisions :=
  repeat match goal with
         | H : bool_decide _ = true |- _ => apply bool_decide_eq_true in H
         | H : bool_decide _ = false |- _ => apply bool_decide_eq_false in H
         | H : negb _ = true |- _ => apply negb_true_iff in H
         | H : negb _ = false |- _ => apply negb_false_iff in H
         end.

(** * Facts *)

(** ** Stepping through the handler *)

Lemma extends_refl (s : State) : extends s s.
Proof. split; exists []; by rewrite app_nil_r. Qed.

Lemma extends_trans (s1 s2 s3 : State) :
  extends s1 s2 → extends s2 s3 → extends s1 s3.
Proof.
  intros [[l1 H1] [t1 H2]] [[l2 H3] [t2 H4]]. split.
  - exists (l1 ++ l2). by rewrite H3, H1, app_assoc.
  - exists (t1 ++ t2). by rewrite H4, H2, app_assoc.
Qed.

Lemma extends_console (s s' : State) e :
  extends s s' → e ∈ st_console s → e ∈ st_console s'.
Proof. intros [[l ->] _] ?. list_mem. Qed.

Lemma extends_trace (s s' : State) e :
  extends s s' → e ∈ st_trace s → e ∈ st_trace s'.
Proof. intros [_ [l ->]] ?. list_mem. Qed.

Section CleanupFacts.

Context {JSON : Type} (env : Env JSON).

(** One variable of the [finally] block: the statement completes
    normally whatever [unlink] does, attempts the deletion when the file
    is there, and leaves every other file alone. *)
Lemma cleanup_one_spec what var s :
  ∃ s', cleanup_one env what var s = (Normal tt, s')
    ∧ extends s s'
    ∧ st_tempFilePath s' = st_tempFilePath s
    ∧ st_outputJsonPath s' = st_outputJsonPath s
    ∧ (∀ p, var = Some p → Js.truthy p = true → is_Some (st_fs s !! p) →
         ∃ ok, EvUnlink p ok ∈ st_trace s')
    ∧ (∀ p d, var = Some p → Js.truthy p = true → st_fs s !! p = Some (File d) →
         env_unlink_error env p = None →
         st_fs s' !! p = None ∧ EvUnlink p true ∈ st_trace s')
    ∧ (∀ q, st_fs s' !! q = st_fs s !! q ∨
            (var = Some q ∧ st_fs s' !! q = None ∧ EvUnlink q true ∈ st_trace s'))
    ∧ (∀ e, e ∈ st_trace s' → e ∈ st_trace s ∨ ∃ p ok, e = EvUnlink p ok).
Proof.
  unfold_calls. run_cases; use_decisions; eexists; (split; [reflexivity|]).
  all: split; [solve_extends|].
  all: repeat split; simpl; auto.
  all: try (intros; simplify_eq; exfalso;
            match goal with H : is_Some _ |- _ => destruct H; congruence end).
  all: try (intros; simplify_eq; done).
  all: try (intros; simplify_eq; eexists; list_mem).
  all: try (intros; simplify_eq; by rewrite lookup_delete_eq).
  all: try (intros; simplify_eq; list_mem).
  all: try (intros q; destruct (decide (s0 = q)) as [->|];
            [right; rewrite lookup_delete_eq; repeat split; list_mem
            |left; by rewrite lookup_delete_ne]).
  all: try (simplify_eq; congruence).
  all: try (intros; mem_inv; eauto).
Qed.

(** The whole [finally] block. *)
Lemma POST_finally_spec s :
  ∃ s', POST_finally env s = (Normal tt, s')
    ∧ extends s s'
    ∧ (∀ p, st_tempFilePath s = Some p ∨ st_outputJsonPath s = Some p →
         Js.truthy p = true → is_Some (st_fs s !! p) →
         ∃ ok, EvUnlink p ok ∈ st_trace s')
    ∧ (∀ p d, st_tempFilePath s = Some p → Js.truthy p = true →
         st_fs s !! p = Some (File d) → env_unlink_error env p = None →
         st_fs s' !! p = None ∧ EvUnlink p true ∈ st_trace s')
    ∧ (∀ e, e ∈ st_trace s' → e ∈ st_trace s ∨ ∃ p ok, e = EvUnlink p ok).
Proof.
  unfold POST_finally, mbind, M_bind, bind, get_state.
  destruct (cleanup_one_spec "input" (st_tempFilePath s) s)
    as (s1 & -> & E1 & T1 & O1 & A1 & D1 & F1 & R1).
  destruct (cleanup_one_spec "output" (st_outputJsonPath s1) s1)
    as (s2 & -> & E2 & T2 & O2 & A2 & D2 & F2 & R2).
  exists s2. split; [done|]. split; [by eapply extends_trans|]. repeat split.
  - intros p [Hp|Hp] Ht Hex.
    + destruct (A1 p Hp Ht Hex) as [ok ?]. exists ok. by eapply extends_trace.
    + rewrite <- O1 in Hp. destruct (F1 p) as [Heq | (_ & _ & Hun)].
      * apply (A2 p Hp Ht). by rewrite Heq.
      * exists true. by eapply extends_trace.
  - destruct (D1 p d) as [Hn Hev]; try done.
    destruct (F2 p) as [Heq | (_ & ? & _)]; [by rewrite Heq | done].
  - destruct (D1 p d) as [Hn Hev]; try done. by eapply extends_trace.
  - intros e He. destruct (R2 e He) as [H|H]; [destruct (R1 e H)|]; eauto.
Qed.

End CleanupFacts.


(** ** Strings and paths *)

Section StringFacts.

Lemma truthy_cons c s : Js.truthy (String c s) = true.
Proof. reflexivity. Qed.

Lemma truthy_nonempty s : Js.truthy s = true ↔ s ≠ "".
Proof. destruct s; simpl; split; intros; done. Qed.

Lemma normalize_truthy p : Js.truthy (Path.normalize p) = true.
Proof.
  unfold Path.normalize.
  destruct (p =? ""); [reflexivity|].
  destruct (Path.normalizeString p (negb (Path.isAbsolute p))) as [|c r] eqn:E; simpl.
  - by destruct (Path.isAbsolute p), (Path.trailingSeparator p).
  - by destruct (Path.isAbsolute p), (Path.trailingSeparator p).
Qed.

(** [path.join] never returns the empty string. *)
Lemma join_truthy args : Js.truthy (Path.join args) = true.
Proof.
  unfold Path.join. destruct (filter _ args); [reflexivity|apply normalize_truthy].
Qed.

End StringFacts.

(** ** The engine phase *)

Section EngineFacts.

Context {JSON : Type} (env : Env JSON).

(** What [run_engine] leaves behind, whatever way it went: it always
    answers, the file system is the one the command left, and the call
    to [exec] with the options of line 120 is on the trace. *)
Lemma run_engine_returns cmd output s :
  ∃ r s', run_engine env cmd output s = (Returned r, s')
    ∧ extends s s'
    ∧ st_fs s' = snd (env_exec env cmd (Some exec_options) (st_fs s))
    ∧ st_tempFilePath s' = st_tempFilePath s
    ∧ st_outputJsonPath s' = st_outputJsonPath s
    ∧ EvExec cmd (Some exec_options) ∈ st_trace s'
    ∧ (∀ p ok, EvWriteFile p ok ∈ st_trace s' → EvWriteFile p ok ∈ st_trace s)
    ∧ (∀ p ok, EvUnlink p ok ∈ st_trace s' → EvUnlink p ok ∈ st_trace s).
Proof.
  unfold run_engine. unfold_calls. simpl.
  destruct (env_exec env cmd (Some exec_options) (st_fs s)) as [[out err|e] f2] eqn:E;
    simpl; run_cases; eexists _, _; (split; [reflexivity|]).
  all: split; [solve_extends|].
  all: repeat split; simpl; auto; try list_mem.
Qed.

(** Zero exit status, output artifact present and readable, valid JSON. *)
Lemma run_engine_success cmd output s out err f2 doc v :
  env_exec env cmd (Some exec_options) (st_fs s) = (ExecOk out err, f2) →
  f2 !! output = Some (File doc) →
  env_readFile_error env output = None →
  env_JSON_parse env doc = inl v →
  fst (run_engine env cmd output s) = Returned (respond 200 (TranscriptionBody v)).
Proof.
  intros E Hout Hread Hparse.
  unfold run_engine. unfold_calls. simpl. rewrite E. simpl.
  by destruct (Js.truthy err);
    repeat (progress (simpl; rewrite ?Hout, ?Hread, ?Hparse)).
Qed.


Lemma append_empty s : s +:+ "" = s.
Proof.
  induction s as [|c s IH]; [done|].
  change (String c (s +:+ "") = String c s). by rewrite IH.
Qed.

(** [exec] rejects: one response shape for every kind of failure. *)
Lemma run_engine_failure cmd output s e f2 :
  env_exec env cmd (Some exec_options) (st_fs s) = (ExecFail e, f2) →
  fst (run_engine env cmd output s) =
    Returned (respond 500
      (ErrorBody "Failed to execute transcription script."
                 (Some (errorDetails_of e +:+ partial_output env f2 output)))).
Proof.
  intros E.
  unfold run_engine, partial_output. unfold_calls. simpl. rewrite E. simpl.
  destruct (f2 !! output) as [[|d]|] eqn:Hout; simpl.
  all: repeat (progress (simpl; rewrite ?Hout)).
  all: try destruct (env_readFile_error env output); simpl.
  all: by rewrite ?append_empty.
Qed.

End EngineFacts.


(** ** The first half of the [try] block *)

Section StageFacts.

Context {JSON : Type} (env : Env JSON).

(** The search only runs probes, never answers the request itself, and
    finds nothing but a candidate. *)
Lemma findPythonExecutable_spec s :
  ∃ c s' t,
    findPythonExecutable env s = (c, s')
    ∧ st_trace s' = st_trace s ++ t ∧ Forall is_probe t
    ∧ (∃ l, st_console s' = st_console s ++ l)
    ∧ st_tempFilePath s' = st_tempFilePath s
    ∧ st_outputJsonPath s' = st_outputJsonPath s
    ∧ (∀ r, c ≠ Returned r)
    ∧ (∀ py, c = Normal py → py ∈ candidates).
Proof.
  assert (is_probe (EvExec (probe_command "python3") None)) as P3
    by (exists "python3"; split; [apply list_elem_of_here|done]).
  assert (is_probe (EvExec (probe_command "python") None)) as P2
    by (exists "python"; split; [apply list_elem_of_further, list_elem_of_here|done]).
  unfold findPythonExecutable, candidates. simpl. unfold_calls.
  run_cases; eexists _, _, _; (split; [reflexivity|]); simpl.
  all: split; [rewrite <- ?app_assoc; reflexivity|].
  all: split; [repeat constructor; assumption|].
  all: split; [eexists; rewrite <- ?app_assoc; reflexivity|].
  all: repeat split; try done.
  all: intros ? [= <-]; unfold candidates;
       first [apply list_elem_of_here | apply list_elem_of_further, list_elem_of_here].
Qed.


Lemma probes_only t e : Forall is_probe t → e ∈ t → is_probe e.
Proof. intros H Hin. by eapply Forall_forall in H. Qed.

Lemma probe_not_write p ok : ¬ is_probe (EvWriteFile p ok).
Proof. by intros (? & _ & ?). Qed.

Lemma probe_not_unlink p ok : ¬ is_probe (EvUnlink p ok).
Proof. by intros (? & _ & ?). Qed.

Lemma probe_exec cmd o :
  is_probe (EvExec cmd o) → o = None ∧ ∃ cand, cand ∈ candidates ∧ cmd = probe_command cand.
Proof. intros (cand & ? & [= -> ->]). eauto. Qed.

Lemma stage_spec request f c s1 :
  stage env request (initial f) = (c, s1) →
  framed s1 ∧ (∀ job, c = Normal job → staged env request job s1).
Proof.
  unfold stage, framed, staged, token_warning.
  simpl. unfold_calls.
  intros H. run_cases.
  all: try match goal with
         | H : findPythonExecutable env ?S = _ |- _ =>
             destruct (findPythonExecutable_spec S)
               as (c' & s'' & t & E & Ht & Hp & [l Hl] & Hi & Ho & Hr & Hpy);
             rewrite H in E; simplify_eq; simpl in *
         end.
  all: try (exfalso; by eapply Hr).
  all: split;
    [|try done; intros ? [= <-]; eexists _, _; simpl;
      repeat split; eauto; rewrite ?Hi, ?Ho, ?Hl; try done].
  all: try (intros _ _; apply list_elem_of_here).
  all: try (intros Hd Hn; simpl in *;
       match goal with H : _ && _ = false |- _ => rewrite Hd, Hn in H; done end).
  all: repeat split; simpl; rewrite ?Ht, ?Hi, ?Ho; simpl.
  all: try (intros; simplify_eq; apply join_truthy).
  all: try done.
  all: unfold not; intros;
       repeat match goal with
              | Ht : st_trace ?s = _, H : _ ∈ st_trace ?s |- _ => rewrite Ht in H
              end;
       mem_inv; try done.
  all: match goal with
       | Hp : Forall is_probe ?t, H : _ ∈ ?t |- _ =>
           apply (probes_only _ _ Hp) in H;
           first [ by apply probe_not_write in H
                 | by apply probe_not_unlink in H
                 | by (apply probe_exec in H; destruct H as (-> & ?))
                 | by (apply probe_exec in H; destruct H as (_ & ?)) ]
       end.
Qed.

End StageFacts.


(** ** The whole handler *)

Section HandlerFacts.

Context {JSON : Type} (env : Env JSON).

(** [launch] logs, then is the engine phase. *)
Lemma launch_spec job s :
  ∃ s0, launch env job s = run_engine env (job_command env job) (job_output job) s0
    ∧ extends s s0
    ∧ st_fs s0 = st_fs s ∧ st_trace s0 = st_trace s
    ∧ st_tempFilePath s0 = st_tempFilePath s
    ∧ st_outputJsonPath s0 = st_outputJsonPath s
    ∧ (job_diarize job = true → no_token (env_HUGGING_FACE_TOKEN env) = true →
       proceed_warning ∈ st_console s0).
Proof.
  unfold launch. unfold_calls.
  destruct (job_diarize job && no_token (env_HUGGING_FACE_TOKEN env)) eqn:E; simpl.
  all: eexists; split; [reflexivity|]; split; [solve_extends|]; repeat split.
  - intros. simpl. list_mem.
  - intros Hd Hn. by rewrite Hd, Hn in E.
Qed.

(** After a successful [stage], with the worker script in place, the
    handler's answer is the engine phase's. *)
Lemma POST_body_launch request f job s1 :
  stage env request (initial f) = (Normal job, s1) →
  is_Some (st_fs s1 !! scriptPath env) →
  POST_body env request (initial f) = launch env job s1.
Proof.
  intros Hst Hsc.
  unfold POST_body, POST_try, try_catch, existsSync, get_state, mbind, M_bind, bind, pure.
  rewrite Hst. simpl. rewrite bool_decide_eq_true_2 by done. simpl.
  destruct (launch_spec job s1) as (s0 & -> & _).
  by destruct (run_engine_returns env (job_command env job) (job_output job) s0)
    as (r & s' & -> & _).
Qed.

(** [POST] is its [try]/[catch] followed by a [finally] block that
    completes normally. *)
Lemma POST_finish request f :
  ∃ s2, POST env request (initial f)
        = (settle (fst (POST_body env request (initial f))), s2)
    ∧ POST_finally env (snd (POST_body env request (initial f))) = (Normal tt, s2).
Proof.
  unfold POST, try_finally. change (declare_paths (initial f)) with (initial f).
  destruct (POST_body env request (initial f)) as [c s1]. simpl.
  destruct (POST_finally_spec env s1) as (s2 & E & _). rewrite E. eauto.
Qed.

(** The state in which the [finally] block starts, on every way there. *)
Lemma POST_body_frame request f :
  (∃ r, fst (POST_body env request (initial f)) = Returned r) ∧
  (∀ p ok, EvWriteFile p ok ∈ st_trace (snd (POST_body env request (initial f))) →
     st_tempFilePath (snd (POST_body env request (initial f))) = Some p) ∧
  (∀ p ok, EvUnlink p ok ∉ st_trace (snd (POST_body env request (initial f)))) ∧
  (∀ p, st_tempFilePath (snd (POST_body env request (initial f))) = Some p →
     Js.truthy p = true) ∧
  (∀ p, st_outputJsonPath (snd (POST_body env request (initial f))) = Some p →
     Js.truthy p = true).
Proof.
  unfold POST_body, POST_try, POST_catch, try_catch.
  unfold existsSync, console, modify, get_state, return_, mbind, M_bind, bind, pure.
  destruct (stage env request (initial f)) as [[job|r|e] s1] eqn:Hst;
    destruct (stage_spec env _ _ _ _ Hst) as ((W & U & _ & Ti & To) & _); simpl.
  - destruct (bool_decide (is_Some (st_fs s1 !! scriptPath env))); simpl.
    + destruct (launch_spec job s1) as (s0 & -> & _ & _ & Ht & Hi & Ho & _).
      destruct (run_engine_returns env (job_command env job) (job_output job) s0)
        as (r & s' & -> & _ & _ & Hi' & Ho' & _ & Hw & Hu). simpl.
      rewrite Hi', Ho', Hi, Ho. repeat split; eauto.
      * intros p ok Hin. apply Hw in Hin. rewrite Ht in Hin. eauto.
      * intros p ok Hin. apply Hu in Hin. rewrite Ht in Hin. by eapply U.
    + repeat split; eauto.
  - repeat split; eauto.
  - repeat split; eauto.
Qed.

End HandlerFacts.


Section EngineAnswers.

Context {JSON : Type} (env : Env JSON).

(** The [try]/[catch] part never calls [unlink]. *)
Lemma POST_body_unlink_free u request s :
  POST_body (with_unlink env u) request s = POST_body env request s.
Proof. destruct env. reflexivity. Qed.

Lemma POST_after_launch request f job s1 :
  stage env request (initial f) = (Normal job, s1) →
  is_Some (st_fs s1 !! scriptPath env) →
  ∃ s0 s2,
    POST env request (initial f)
    = (settle (fst (run_engine env (job_command env job) (job_output job) s0)), s2)
    ∧ st_fs s0 = st_fs s1
    ∧ extends s1 s0
    ∧ extends (snd (run_engine env (job_command env job) (job_output job) s0)) s2
    ∧ (job_diarize job = true → no_token (env_HUGGING_FACE_TOKEN env) = true →
       proceed_warning ∈ st_console s0).
Proof.
  intros Hst Hsc.
  destruct (POST_finish env request f) as (s2 & -> & Hfin).
  rewrite (POST_body_launch env _ _ _ _ Hst Hsc) in *.
  destruct (launch_spec env job s1) as (s0 & E & Hext & Hfs & _ & _ & _ & Hw).
  rewrite E in *.
  destruct (POST_finally_spec env (snd (run_engine env (job_command env job) (job_output job) s0)))
    as (s2' & E2 & Hext2 & _).
  rewrite E2 in Hfin. simplify_eq. eauto 10.
Qed.

(** C5: a job whose engine exits with status zero and leaves a readable,
    valid JSON document at the output path is answered with HTTP 200
    and a body whose [transcription] member is the parsed document. *)
Theorem success_echoes_transcription request f job s1 out err f2 doc v :
  stage env request (initial f) = (Normal job, s1) →
  is_Some (st_fs s1 !! scriptPath env) →
  env_exec env (job_command env job) (Some exec_options) (st_fs s1)
    = (ExecOk out err, f2) →
  f2 !! job_output job = Some (File doc) →
  env_readFile_error env (job_output job) = None →
  env_JSON_parse env doc = inl v →
  fst (POST env request (initial f))
    = Resolved (Some (respond 200 (TranscriptionBody v))).
Proof.
  intros Hst Hsc Hex Hout Hread Hparse.
  destruct (POST_after_launch _ _ _ _ Hst Hsc) as (s0 & s2 & -> & Hfs & _).
  simpl. rewrite <- Hfs in Hex.
  by rewrite (run_engine_success env _ _ _ _ _ _ _ _ Hex Hout Hread Hparse).
Qed.


(** Shared by C4 and C7: the answer to any rejection of [exec]. *)
Lemma engine_failure_response request f job s1 e f2 :
  stage env request (initial f) = (Normal job, s1) →
  is_Some (st_fs s1 !! scriptPath env) →
  env_exec env (job_command env job) (Some exec_options) (st_fs s1)
    = (ExecFail e, f2) →
  fst (POST env request (initial f))
    = Resolved (Some (respond 500
        (ErrorBody "Failed to execute transcription script."
           (Some (errorDetails_of e +:+ partial_output env f2 (job_output job)))))).
Proof.
  intros Hst Hsc Hex.
  destruct (POST_after_launch _ _ _ _ Hst Hsc) as (s0 & s2 & -> & Hfs & _).
  simpl. rewrite <- Hfs in Hex.
  by rewrite (run_engine_failure env _ _ _ _ _ Hex).
Qed.

End EngineAnswers.


(** ** Strings, once more: lengths, prefixes, digits *)

Section MoreStringFacts.

Lemma append_cons c a b : String c a +:+ b = String c (a +:+ b).
Proof. reflexivity. Qed.

Lemma append_nil_l a : "" +:+ a = a.
Proof. reflexivity. Qed.

Lemma append_assoc a b c : (a +:+ b) +:+ c = a +:+ (b +:+ c).
Proof.
  induction a as [|x a IH]; [done|]. by rewrite !append_cons, IH.
Qed.

Lemma length_append a b : String.length (a +:+ b) = String.length a + String.length b.
Proof.
  induction a as [|x a IH]; [done|]. rewrite append_cons. simpl. by rewrite IH.
Qed.

Lemma append_inv_head a b c : a +:+ b = a +:+ c → b = c.
Proof. apply String.app_inj. Qed.

Lemma append_inv_tail a b c : a +:+ c = b +:+ c → a = b.
Proof.
  revert b. induction a as [|x a IH]; intros [|y b] H.
  - done.
  - apply (f_equal String.length) in H. rewrite !length_append in H.
    simpl in H. lia.
  - apply (f_equal String.length) in H. rewrite !length_append in H.
    simpl in H. lia.
  - rewrite !append_cons in H. injection H as -> H. f_equal. by apply IH.
Qed.

Lemma every_append P a b : every P (a +:+ b) = every P a && every P b.
Proof.
  induction a as [|x a IH]; [done|]. rewrite append_cons. simpl.
  by rewrite IH, andb_assoc.
Qed.

Lemma drop_append a b : Js.drop (String.length a) (a +:+ b) = b.
Proof. induction a as [|x a IH]; [by destruct b|]. by rewrite append_cons. Qed.

Lemma take_append a b : Js.take (String.length a) (a +:+ b) = a.
Proof.
  induction a as [|x a IH]; [by destruct b|]. rewrite append_cons. simpl. by rewrite IH.
Qed.

Lemma endsWith_append a b : Js.endsWith b (a +:+ b) = true.
Proof.
  unfold Js.endsWith. rewrite length_append.
  replace (String.length a + String.length b - String.length b)
    with (String.length a) by lia.
  rewrite drop_append, String.eqb_refl, andb_true_r.
  apply Nat.leb_le. lia.
Qed.

(** Decimal numerals are made of digits. *)
Lemma digits_of_uint d : digits (NilEmpty.string_of_uint d) = true.
Proof. induction d; simpl; auto. Qed.

Lemma digits_of_N n : digits (Js.of_N n) = true.
Proof.
  unfold Js.of_N, NilZero.string_of_uint.
  destruct (N.to_uint n); try apply digits_of_uint. reflexivity.
Qed.

Lemma of_N_inj n m : Js.of_N n = Js.of_N m → n = m.
Proof.
  unfold Js.of_N. intros H. apply DecimalN.Unsigned.to_uint_inj.
  assert (∀ k, N.to_uint k ≠ Decimal.Nil) as Hnn.
  { intros [|p]; [done|]. apply DecimalPos.Unsigned.to_uint_nonnil. }
  apply (f_equal NilZero.uint_of_string) in H.
  rewrite !NilZero.usu in H by apply Hnn. by injection H.
Qed.

Lemma of_N_nonempty n : ∃ c r, Js.of_N n = String c r ∧ is_digit c = true.
Proof.
  pose proof (digits_of_N n) as Hd.
  assert (Js.of_N n ≠ "") as Hne.
  { unfold Js.of_N, NilZero.string_of_uint.
    destruct (N.to_uint n) eqn:E; try done. }
  destruct (Js.of_N n) as [|c r]; [done|]. simpl in Hd.
  apply andb_true_iff in Hd as [? _]. eauto.
Qed.

(** A numeral, a dash and a name: the name can be read back. *)
Lemma numeral_dash_inj d1 d2 n1 n2 :
  digits d1 = true → digits d2 = true →
  d1 +:+ "-" +:+ n1 = d2 +:+ "-" +:+ n2 → d1 = d2 ∧ n1 = n2.
Proof.
  revert d2. induction d1 as [|x d1 IH]; intros [|y d2] H1 H2 H.
  - by injection H.
  - rewrite append_cons in H. injection H as <- _. done.
  - rewrite append_cons in H. injection H as -> _. done.
  - rewrite !append_cons in H. injection H as -> H. simpl in H1, H2.
    apply andb_true_iff in H1 as [_ H1]. apply andb_true_iff in H2 as [_ H2].
    destruct (IH d2 H1 H2 H) as [-> ->]. done.
Qed.

End MoreStringFacts.


(** ** Paths *)

Section PathFacts.

Lemma segments_nonempty p : Path.segments p ≠ [].
Proof.
  destruct p as [|c p]; simpl; [done|].
  destruct (Path.is_slash c); [done|]. by destruct (Path.segments p).
Qed.

Lemma segments_slash_free s : slash_free s = true → Path.segments s = [s].
Proof.
  induction s as [|c s IH]; [done|]. simpl. intros [Hc Hs]%andb_true_iff.
  apply negb_true_iff in Hc. rewrite Hc. by rewrite (IH Hs).
Qed.

Lemma segments_append a b :
  Path.segments (a +:+ "/" +:+ b) = Path.segments a ++ Path.segments b.
Proof.
  induction a as [|c a IH]; [done|]. rewrite append_cons. simpl. rewrite IH.
  destruct (Path.is_slash c); [done|].
  pose proof (segments_nonempty a). by destruct (Path.segments a).
Qed.

Lemma plain_segment_inv s :
  plain_segment s = true →
  slash_free s = true ∧ (s =? "") = false ∧ (s =? ".") = false ∧ (s =? "..") = false.
Proof.
  unfold plain_segment. rewrite !andb_true_iff, !negb_true_iff. tauto.
Qed.

Lemma push_segment_plain allow res s :
  plain_segment s = true → Path.push_segment allow res s = s :: res.
Proof.
  intros (_ & H1 & H2 & H3)%plain_segment_inv. unfold Path.push_segment.
  by rewrite H1, H2, H3.
Qed.

Lemma join_snoc sep l s :
  Js.join sep (l ++ [s]) =
  match l with [] => s | _ => Js.join sep l +:+ sep +:+ s end.
Proof.
  unfold Js.join. induction l as [|x l IH]; [done|]. simpl.
  destruct l as [|y l]; [done|]. simpl in *. rewrite IH.
  by rewrite !append_assoc.
Qed.

Lemma endsWith_slash_cons c s :
  s ≠ "" → Js.endsWith "/" (String c s) = Js.endsWith "/" s.
Proof.
  destruct s as [|d s]; [done|]. intros _. unfold Js.endsWith. simpl.
  by rewrite !Nat.sub_0_r.
Qed.

Lemma endsWith_slash_append a s :
  s ≠ "" → Js.endsWith "/" (a +:+ s) = Js.endsWith "/" s.
Proof.
  intros Hs. induction a as [|c a IH]; [done|]. rewrite append_cons.
  rewrite endsWith_slash_cons; [done|]. by destruct a, s.
Qed.

Lemma endsWith_slash_free s : slash_free s = true → Js.endsWith "/" s = false.
Proof.
  induction s as [|c s IH]; [done|]. simpl. intros [Hc Hs]%andb_true_iff.
  destruct s as [|d s].
  - unfold Js.endsWith. simpl. unfold Path.is_slash in Hc.
    apply negb_true_iff in Hc. by rewrite Hc.
  - rewrite endsWith_slash_cons by done. by apply IH.
Qed.

Lemma append_nonempty_r a b : b ≠ "" → a +:+ b ≠ "".
Proof.
  intros Hb E. apply (f_equal String.length) in E. rewrite length_append in E.
  destruct b; [done|]. simpl in E. lia.
Qed.

(** [path.normalize] of a directory followed by a plain segment. *)
Lemma normalize_plain dir s :
  dir ≠ "" → plain_segment s = true →
  Path.normalize (dir +:+ "/" +:+ s) = dir_prefix dir +:+ s.
Proof.
  intros Hdir Hplain.
  destruct (plain_segment_inv _ Hplain) as (Hsf & Hne & _ & _).
  apply String.eqb_neq in Hne.
  assert (Path.isAbsolute (dir +:+ "/" +:+ s) = Path.isAbsolute dir) as Habs
    by (by destruct dir).
  assert ((dir +:+ "/" +:+ s =? "") = false) as Hnonempty
    by (by destruct dir).
  unfold Path.normalize, dir_prefix, Path.normalizeString.
  rewrite Hnonempty, Habs.
  rewrite segments_append, fold_left_app, (segments_slash_free _ Hsf).
  remember (fold_left (Path.push_segment (negb (Path.isAbsolute dir)))
              (Path.segments dir) []) as K eqn:EK.
  cbn [fold_left]. rewrite push_segment_plain by done.
  change (rev (s :: K)) with (rev K ++ [s]). rewrite join_snoc.
  unfold Path.trailingSeparator.
  rewrite <- (append_assoc dir "/" s).
  rewrite (endsWith_slash_append (dir +:+ "/") s) by done.
  rewrite endsWith_slash_free by done.
  destruct K as [|top below].
  - cbn [rev]. apply String.eqb_neq in Hne. rewrite Hne.
    by destruct (Path.isAbsolute dir).
  - destruct (rev (top :: below)) as [|y l] eqn:Er.
    { apply (f_equal (@length _)) in Er. rewrite length_rev in Er. done. }
    assert (Js.join "/" (y :: l) +:+ "/" +:+ s ≠ "") as Hj
      by (rewrite <- append_assoc; by apply append_nonempty_r).
    apply String.eqb_neq in Hj. rewrite Hj.
    destruct (Path.isAbsolute dir); by rewrite ?append_assoc.
Qed.

Lemma join_plain dir s :
  dir ≠ "" → plain_segment s = true →
  Path.join [dir; s] = dir_prefix dir +:+ s.
Proof.
  intros Hdir Hplain.
  destruct (plain_segment_inv _ Hplain) as (_ & Hne & _ & _).
  apply String.eqb_neq in Hne.
  unfold Path.join.
  rewrite filter_cons_True by by apply truthy_nonempty.
  rewrite filter_cons_True by by apply truthy_nonempty.
  rewrite filter_nil.
  by apply normalize_plain.
Qed.

Lemma dir_prefix_shape dir : dir_prefix dir = "" ∨ ∃ q, dir_prefix dir = q +:+ "/".
Proof.
  unfold dir_prefix.
  destruct (fold_left _ _ _) as [|top below].
  - destruct (Path.isAbsolute dir); [right; by exists ""|by left].
  - right. eexists. by rewrite <- append_assoc.
Qed.

Lemma last_segment_after_prefix pre s :
  pre = "" ∨ (∃ q, pre = q +:+ "/") →
  slash_free s = true → s ≠ "" →
  Path.last_segment (pre +:+ s) = s.
Proof.
  intros Hpre Hsf Hne. apply String.eqb_neq in Hne. unfold Path.last_segment.
  destruct Hpre as [->|[q ->]].
  - rewrite append_nil_l, segments_slash_free by done. simpl. by rewrite Hne.
  - rewrite append_assoc, segments_append, fold_left_app.
    rewrite (segments_slash_free _ Hsf). simpl. by rewrite Hne.
Qed.

End PathFacts.

(** ** The names of the two artifacts *)

Section ArtifactNames.

Context {JSON : Type} (env : Env JSON).

Lemma every_impl (P Q : ascii → bool) s :
  (∀ c, P c = true → Q c = true) → every P s = true → every Q s = true.
Proof.
  intros HPQ. induction s as [|c s IH]; [done|]. simpl.
  intros [Hc Hs]%andb_true_iff. by rewrite (HPQ c Hc), (IH Hs).
Qed.

Lemma digit_not_slash c : is_digit c = true → negb (Path.is_slash c) = true.
Proof.
  unfold is_digit, Path.is_slash.
  destruct (Ascii.eqb_spec c "/") as [->|]; [done|done].
Qed.

Lemma digit_not_dot c : is_digit c = true → negb (Path.is_dot c) = true.
Proof.
  unfold is_digit, Path.is_dot.
  destruct (Ascii.eqb_spec c ".") as [->|]; [done|done].
Qed.

Lemma split_last_dot_spec s pre ext :
  Path.split_last_dot s = Some (pre, ext) →
  s = pre +:+ ext ∧ ∃ r, ext = String "." r.
Proof.
  revert pre ext. induction s as [|c s IH]; intros pre ext; simpl; [done|].
  destruct (Path.split_last_dot s) as [[pre' ext']|].
  - intros [= <- <-]. destruct (IH _ _ eq_refl) as [-> Hext]. by rewrite append_cons.
  - unfold Path.is_dot. destruct (Ascii.eqb_spec c ".") as [->|]; [|done].
    intros [= <- <-]. eauto.
Qed.

Lemma split_last_dot_app a n :
  dot_free a = true →
  Path.split_last_dot (a +:+ n) =
  match Path.split_last_dot n with
  | Some (pre, ext) => Some (a +:+ pre, ext)
  | None => None
  end.
Proof.
  induction a as [|c a IH]; simpl.
  - intros _. rewrite append_nil_l. by destruct (Path.split_last_dot n) as [[??]|].
  - intros [Hc Ha]%andb_true_iff. rewrite (IH Ha).
    destruct (Path.split_last_dot n) as [[pre ext]|]; [done|].
    apply negb_true_iff in Hc. by rewrite Hc.
Qed.

(** The last segment of an input artifact: the time, a dash, the name. *)
Lemma stamp_dot_free t : dot_free (Js.of_N t +:+ "-") = true.
Proof.
  unfold dot_free. rewrite every_append, andb_true_iff. split; [|done].
  eapply every_impl, digits_of_N. apply digit_not_dot.
Qed.

Lemma stamped_plain t n :
  slash_free n = true → plain_segment (Js.of_N t +:+ "-" +:+ n) = true.
Proof.
  intros Hn. unfold plain_segment.
  assert (slash_free (Js.of_N t +:+ "-" +:+ n) = true) as ->.
  { unfold slash_free. rewrite !every_append, !andb_true_iff. repeat split; [|done].
    eapply every_impl, digits_of_N. apply digit_not_slash. }
  destruct (of_N_nonempty t) as (c & r & -> & Hc). rewrite append_cons. simpl.
  unfold is_digit in Hc.
  destruct (Ascii.eqb_spec c ".") as [->|]; [done|]. done.
Qed.

Lemma tempDir_nonempty : tempDir env ≠ "".
Proof. apply truthy_nonempty, join_truthy. Qed.

(** The input artifact of a name without separators lies directly in
    the upload directory, under the time, a dash and the name. *)
Lemma tempFilePath_shape t n :
  slash_free n = true →
  tempFilePath_of env t n = dir_prefix (tempDir env) +:+ Js.of_N t +:+ "-" +:+ n.
Proof.
  intros Hn. unfold tempFilePath_of.
  by rewrite join_plain by (apply tempDir_nonempty || by apply stamped_plain).
Qed.

Lemma slash_free_stem n : slash_free n = true → slash_free (stem n) = true.
Proof.
  unfold stem. destruct (Path.split_last_dot n) as [[pre ext]|] eqn:E; [|done].
  destruct (split_last_dot_spec _ _ _ E) as [-> _].
  unfold slash_free. rewrite every_append. by intros [? _]%andb_true_iff.
Qed.

Lemma last_segment_of_input t n :
  slash_free n = true →
  Path.last_segment (tempFilePath_of env t n) = Js.of_N t +:+ "-" +:+ n.
Proof.
  intros Hn. rewrite tempFilePath_shape by done.
  destruct (plain_segment_inv _ (stamped_plain t n Hn)) as (Hsf & Hne & _).
  apply last_segment_after_prefix; [apply dir_prefix_shape|done|].
  by apply String.eqb_neq.
Qed.

(** The extension of an input artifact is the extension of the name. *)
Lemma extname_of_input t n :
  slash_free n = true →
  Path.extname (tempFilePath_of env t n)
  = match Path.split_last_dot n with Some (_, ext) => ext | None => "" end.
Proof.
  intros Hn. unfold Path.extname. rewrite last_segment_of_input by done.
  destruct (plain_segment_inv _ (stamped_plain t n Hn)) as (_ & _ & _ & ->).
  rewrite <- (append_assoc (Js.of_N t) "-" n).
  rewrite (split_last_dot_app _ n (stamp_dot_free t)).
  destruct (Path.split_last_dot n) as [[pre ext]|]; [|done].
  destruct (of_N_nonempty t) as (c & d & -> & _). by rewrite !append_cons.
Qed.

(** [path.basename] cuts a suffix that ends the last segment without
    being all of it. *)
Lemma basename_cut p pre ext :
  pre ≠ "" → ext ≠ "" →
  Path.last_segment p = pre +:+ ext →
  (String.length (pre +:+ ext) <= String.length p)%nat →
  Path.basename p ext = pre.
Proof.
  intros Hpre Hext Hlast Hlen. unfold Path.basename. rewrite Hlast.
  rewrite length_append in Hlen.
  assert (0 < String.length pre)%nat by (destruct pre; [done|simpl; lia]).
  apply truthy_nonempty in Hext as ->. cbn [andb].
  assert ((String.length ext <=? String.length p)%nat = true) as ->
    by (apply Nat.leb_le; lia).
  assert ((ext =? p) = false) as ->.
  { apply String.eqb_neq. intros <-. lia. }
  rewrite endsWith_append.
  assert ((pre +:+ ext =? ext) = false) as ->.
  { apply String.eqb_neq. intros Heq. apply (f_equal String.length) in Heq.
    rewrite length_append in Heq. lia. }
  rewrite length_append.
  replace (String.length pre + String.length ext - String.length ext)
    with (String.length pre) by lia.
  apply take_append.
Qed.

(** What [path.basename(p, path.extname(p))] is for an input artifact. *)
Lemma basename_of_input t n :
  slash_free n = true →
  Path.basename (tempFilePath_of env t n) (Path.extname (tempFilePath_of env t n))
  = Js.of_N t +:+ "-" +:+ stem n.
Proof.
  intros Hn. rewrite extname_of_input by done. unfold stem.
  destruct (Path.split_last_dot n) as [[pre ext]|] eqn:E.
  - destruct (split_last_dot_spec _ _ _ E) as [En [r ->]].
    destruct (of_N_nonempty t) as (c & d & Ht & _).
    apply basename_cut.
    + by rewrite Ht.
    + done.
    + rewrite last_segment_of_input by done. by rewrite En, !append_assoc.
    + rewrite tempFilePath_shape by done. rewrite En, !length_append. lia.
  - unfold Path.basename. cbn [Js.truthy String.eqb negb andb].
    by apply last_segment_of_input.
Qed.

(** The output artifact of a name without separators: the same
    directory, the time, a dash, the name up to its last dot, [.json]. *)
Lemma outputJsonPath_shape t n :
  slash_free n = true →
  outputJsonPath_of env (tempFilePath_of env t n)
  = dir_prefix (tempDir env) +:+ Js.of_N t +:+ "-" +:+ stem n +:+ ".json".
Proof.
  intros Hn. unfold outputJsonPath_of. rewrite basename_of_input by done.
  rewrite join_plain.
  - by rewrite !append_assoc.
  - apply tempDir_nonempty.
  - rewrite !append_assoc. apply stamped_plain.
    unfold slash_free. rewrite every_append. fold (slash_free (stem n)).
    by rewrite slash_free_stem.
Qed.

(** C8, as the code has it: for two different names without separators
    the input artifacts differ whatever the two times are, and the two
    output artifacts coincide exactly when the times are equal and the
    names agree up to their last dot. *)
Theorem artifact_names_distinct t1 t2 n1 n2 :
  slash_free n1 = true → slash_free n2 = true → n1 ≠ n2 →
  tempFilePath_of env t1 n1 ≠ tempFilePath_of env t2 n2
  ∧ (outputJsonPath_of env (tempFilePath_of env t1 n1)
     = outputJsonPath_of env (tempFilePath_of env t2 n2)
     ↔ t1 = t2 ∧ stem n1 = stem n2).
Proof.
  intros H1 H2 Hne. split.
  - rewrite !tempFilePath_shape by done. intros E%append_inv_head.
    apply numeral_dash_inj in E as [_ ?]; [done|apply digits_of_N..].
  - rewrite !outputJsonPath_shape by done. split.
    + intros E%append_inv_head.
      pose proof (append_assoc "-" (stem n1) ".json") as A1.
      pose proof (append_assoc "-" (stem n2) ".json") as A2.
      rewrite <- A1, <- A2, <- !append_assoc in E.
      apply append_inv_tail in E. rewrite !append_assoc in E.
      apply numeral_dash_inj in E as [Ht ?]; [|apply digits_of_N..].
      split; [by apply of_N_inj|done].
    + by intros [-> ->].
Qed.

End ArtifactNames.

(** ** Where the token goes *)

Section TokenFacts.

Context {JSON : Type} (env : Env JSON).

Lemma startsWith_append p b : Js.startsWith p (p +:+ b) = true.
Proof.
  induction p as [|c p IH]; [done|]. rewrite append_cons. simpl.
  by rewrite Ascii.eqb_refl.
Qed.

Lemma startsWith_append_l p a b :
  Js.startsWith p a = true → Js.startsWith p (a +:+ b) = true.
Proof.
  revert a. induction p as [|c p IH]; intros [|x a]; simpl; try done.
  rewrite ?append_cons. simpl. destruct (Ascii.eqb c x); [apply IH|done].
Qed.

Lemma includes_here p b : Js.includes p (p +:+ b) = true.
Proof.
  destruct p as [|c p]; [by destruct b|]. rewrite append_cons.
  change (Js.startsWith (String c p) (String c (p +:+ b))
          || Js.includes (String c p) (p +:+ b) = true).
  by rewrite <- append_cons, startsWith_append.
Qed.

Lemma includes_append_r p a b :
  Js.includes p b = true → Js.includes p (a +:+ b) = true.
Proof.
  intros H. induction a as [|c a IH]; [done|]. rewrite append_cons. simpl.
  by rewrite IH, orb_true_r.
Qed.

Lemma includes_append_l p a b :
  Js.includes p a = true → Js.includes p (a +:+ b) = true.
Proof.
  induction a as [|c a IH].
  - destruct p; [by destruct b|done].
  - rewrite append_cons. simpl. intros [H|H]%orb_true_iff.
    + by rewrite <- append_cons, (startsWith_append_l _ _ _ H).
    + by rewrite (IH H), orb_true_r.
Qed.

(** With diarization on and a token in the environment, the token is
    part of the command line. *)
Lemma command_includes_token py input output tok :
  Js.truthy tok = true →
  Js.includes tok (command env py input output true (Some tok)) = true.
Proof.
  intros Ht. unfold command, commandParts. rewrite Ht.
  cbn [app Js.join String.concat].
  do 5 (apply includes_append_r; apply includes_append_r).
  apply includes_append_r. unfold quoted.
  apply includes_append_r, includes_here.
Qed.

(** The error of a failed engine is written to the console. *)
Lemma run_engine_failure_logged cmd output s e f2 :
  env_exec env cmd (Some exec_options) (st_fs s) = (ExecFail e, f2) →
  {| log_level := LError;
     log_args := [AStr "Error executing Python script:"; AErr e] |}
    ∈ st_console (snd (run_engine env cmd output s)).
Proof.
  intros E. unfold run_engine. unfold_calls. simpl. rewrite E. simpl.
  run_cases; list_mem.
Qed.

Lemma console_mentions_intro secret (e : LogEntry) l :
  e ∈ l → entry_mentions secret e = true → console_mentions secret l = true.
Proof.
  intros Hin He. apply existsb_exists. exists e. split; [|done].
  by apply list_elem_of_In.
Qed.

End TokenFacts.

(** ** The token, the quotes *)

Section Leaks.

Context {JSON : Type} (env : Env JSON).

(** An error with two empty streams is reported by its message. *)
Lemma errorDetails_silent m c info :
  Js.truthy m = true → errorDetails_of (ExecError m c "" "" info) = m.
Proof.
  intros H. unfold errorDetails_of.
  cbn [err_stderr err_stdout err_message js_or_undef].
  unfold js_or. cbn [Js.truthy String.eqb negb]. fold (Js.truthy m). by rewrite H.
Qed.

(** C1 fails in the code: with diarization on and a token in the
    environment, an engine that fails without writing anything to its
    two streams makes the handler answer with the message of the error
    of [exec], which repeats the command line and with it the token; the
    same error, with its [cmd] property, is written to the console. *)
Theorem token_reaches_details_and_console request f job s1 tok info f2 :
  stage env request (initial f) = (Normal job, s1) →
  is_Some (st_fs s1 !! scriptPath env) →
  job_diarize job = true →
  env_HUGGING_FACE_TOKEN env = Some tok →
  Js.truthy tok = true →
  env_exec env (job_command env job) (Some exec_options) (st_fs s1)
    = (ExecFail (exec_error (job_command env job) "" "" info), f2) →
  (∃ r d, response_of (fst (POST env request (initial f))) = Some r
          ∧ status r = 500%N
          ∧ details_of r = Some d
          ∧ Js.includes tok d = true)
  ∧ console_mentions tok (st_console (snd (POST env request (initial f)))) = true.
Proof.
  intros Hst Hsc Hd Htok Ht Hex.
  assert (Js.includes tok (job_command env job) = true) as Hcmd.
  { unfold job_command. rewrite Hd, Htok. by apply command_includes_token. }
  split.
  - rewrite (engine_failure_response env _ _ _ _ _ _ Hst Hsc Hex).
    eexists _, _. repeat split.
    apply includes_append_l. unfold exec_error.
    rewrite errorDetails_silent by done.
    apply includes_append_r, includes_append_l, Hcmd.
  - destruct (POST_after_launch env _ _ _ _ Hst Hsc)
      as (s0 & s2 & E & Hfs & _ & Hext & _).
    rewrite E. simpl. rewrite <- Hfs in Hex.
    eapply console_mentions_intro.
    + eapply extends_console; [done|].
      by apply (run_engine_failure_logged env _ _ _ _ _ Hex).
    + unfold entry_mentions, exec_error.
      cbn [log_args flat_map arg_texts app existsb]. by rewrite Hcmd, !orb_true_r.
Qed.

End Leaks.


(** ** The events of a run *)

Section EventFacts.

Context {JSON : Type} (env : Env JSON).

(** The engine phase adds two kinds of events: the call to [exec] with
    the options of line 120, and reads of the output artifact. *)
Lemma run_engine_trace cmd output s e :
  e ∈ st_trace (snd (run_engine env cmd output s)) →
  e ∈ st_trace s ∨ e = EvExec cmd (Some exec_options) ∨ e = EvReadFile output.
Proof.
  unfold run_engine. unfold_calls. simpl.
  destruct (env_exec env cmd (Some exec_options) (st_fs s)) as [[out err|e'] f2];
    simpl; run_cases; intros; mem_inv; auto.
Qed.

(** The interpreter the search settles on was probed. *)
Lemma findPythonExecutable_found s py s' :
  findPythonExecutable env s = (Normal py, s') →
  EvExec (probe_command py) None ∈ st_trace s'.
Proof.
  unfold findPythonExecutable, candidates. simpl. unfold_calls.
  intros H. run_cases; list_mem.
Qed.

(** The first half of the handler writes one file, the input artifact
    of the upload; once it is written in full, the second variable holds
    the output path derived from it.  A job that is handed over had its
    artifact written and its interpreter probed. *)
Lemma stage_writes request f c s1 :
  stage env request (initial f) = (c, s1) →
  (∀ p ok, EvWriteFile p ok ∈ st_trace s1 →
     ∃ form mf, req_formData request = inl form ∧ fd_mediaFile form = Some mf
       ∧ p = tempFilePath_of env (env_now env) (mf_name mf)
       ∧ (ok = true → st_outputJsonPath s1 = Some (outputJsonPath_of env p)))
  ∧ (∀ job, c = Normal job →
       EvWriteFile (job_input job) true ∈ st_trace s1
       ∧ EvExec (probe_command (job_pythonPath job)) None ∈ st_trace s1).
Proof.
  unfold stage. simpl. unfold_calls.
  intros H. run_cases.
  all: try match goal with
         | H : findPythonExecutable env ?S = _ |- _ =>
             destruct (findPythonExecutable_spec env S)
               as (c' & s'' & t & E & Ht & Hp & [l Hl] & Hi & Ho & Hr & Hpy);
             pose proof (findPythonExecutable_found S) as Hfound;
             rewrite H in E, Hfound; simplify_eq; simpl in *
         end.
  all: try (exfalso; by eapply Hr).
  all: split;
    [|first [done | intros ? [= <-]; simpl;
                     split; [rewrite Ht; list_mem | by eapply Hfound]]].
  all: intros p ok Hin;
       repeat match goal with
              | Ht : st_trace ?s = _, H : _ ∈ st_trace ?s |- _ => rewrite Ht in H
              end;
       simpl in Hin; mem_inv;
       try (match goal with
            | Hp : Forall is_probe ?t, H : _ ∈ ?t |- _ =>
                apply (probes_only _ _ Hp) in H; by apply probe_not_write in H
            end);
       eexists _, _; repeat split; try done; rewrite ?Ho; done.
Qed.

End EventFacts.

(** ** What does not depend on the console, nor on the token *)

Section Alike.

Context {JSON : Type}.

Lemma same_world_refl (s : State) : same_world s s.
Proof. by repeat split. Qed.

Lemma same_world_log e s s' : same_world s s' → same_world (with_log e s) s'.
Proof. intros (?&?&?&?). by repeat split. Qed.

Lemma alike_pure {A} (a : A) : alike (JSON := JSON) (pure a) (pure a).
Proof. intros s s' Hs. by split. Qed.

Lemma alike_return {A} r : alike (JSON := JSON) (A := A) (return_ r) (return_ r).
Proof. intros s s' Hs. by split. Qed.

Lemma alike_throw {A} e : alike (JSON := JSON) (A := A) (throw e) (throw e).
Proof. intros s s' Hs. by split. Qed.

Lemma alike_bind {A B} (m m' : M JSON A) (k k' : A → M JSON B) :
  alike m m' → (∀ a, alike (k a) (k' a)) → alike (bind m k) (bind m' k').
Proof.
  intros Hm Hk s s' Hs. unfold bind. destruct (Hm s s' Hs) as [E Hw].
  destruct (m s) as [c s1], (m' s') as [c' s1']. simpl in *. subst c'.
  destruct c; simpl; [by apply Hk|done|done].
Qed.

Lemma alike_try_catch {A} (m m' : M JSON A) h h' :
  alike m m' → (∀ e, alike (h e) (h' e)) → alike (try_catch m h) (try_catch m' h').
Proof.
  intros Hm Hh s s' Hs. unfold try_catch. destruct (Hm s s' Hs) as [E Hw].
  destruct (m s) as [c s1], (m' s') as [c' s1']. simpl in *. subst c'.
  destruct c; simpl; [done|done|by apply Hh].
Qed.

(** Writing to the console is as good as doing nothing. *)
Lemma alike_console_l lvl args (m' : M JSON unit) :
  alike (pure tt) m' → alike (console lvl args) m'.
Proof.
  intros H s s' Hs. destruct (H s s' Hs) as [E Hw]. split; [done|].
  simpl in *. by apply same_world_log.
Qed.

Lemma alike_sym {A} (m m' : M JSON A) : alike m m' → alike m' m.
Proof.
  intros H s s' (?&?&?&?). destruct (H s' s) as [E (?&?&?&?)]; [by repeat split|].
  by repeat split.
Qed.

Lemma alike_console lvl args lvl' args' :
  alike (JSON := JSON) (console lvl args) (console lvl' args').
Proof. apply alike_console_l, alike_sym, alike_console_l, alike_pure. Qed.

Lemma alike_when_warn b b' e e' :
  alike (JSON := JSON) (when b (warn e)) (when b' (warn e')).
Proof.
  intros s s' (?&?&?&?). by destruct b, b'; repeat split.
Qed.

Lemma alike_existsSync p : alike (JSON := JSON) (existsSync p) (existsSync p).
Proof.
  intros s s' Hs. unfold existsSync, mbind, M_bind, bind, get_state, pure. simpl.
  destruct Hs as (Hf&?&?&?). rewrite Hf. by repeat split.
Qed.

Lemma alike_modify (g : State → State) :
  (∀ s s', same_world s s' → same_world (g s) (g s')) →
  alike (JSON := JSON) (modify g) (modify g).
Proof. intros Hg s s' Hs. split; [done|]. by apply Hg. Qed.

End Alike.

Section AlikeCalls.

Context {JSON : Type} (env env' : Env JSON).

Lemma alike_mkdirSync p :
  env_mkdir_error env = env_mkdir_error env' →
  alike (mkdirSync env p) (mkdirSync env' p).
Proof.
  intros E s s' (Hf&Ht&?&?). unfold mkdirSync. unfold_calls. rewrite E.
  destruct (env_mkdir_error env' p); unfold same_world; simpl; rewrite ?Hf, ?Ht; by repeat split.
Qed.

Lemma alike_writeFile p data :
  env_writeFile env = env_writeFile env' →
  alike (writeFile env p data) (writeFile env' p data).
Proof.
  intros E s s' (Hf&Ht&?&?). unfold writeFile. unfold_calls. rewrite E, Hf.
  destruct (st_fs s' !! p) as [[|d]|], (env_writeFile env' p) as [|msg [d'|]];
    unfold same_world; simpl; rewrite ?Hf, ?Ht; by repeat split.
Qed.

Lemma alike_execPromise cmd opts :
  env_exec env = env_exec env' →
  alike (execPromise env cmd opts) (execPromise env' cmd opts).
Proof.
  intros E s s' (Hf&Ht&?&?). unfold execPromise. unfold_calls. simpl. rewrite E, Hf.
  destruct (env_exec env' cmd opts (st_fs s')) as [[out err|e] f2];
    unfold same_world; simpl; rewrite ?Ht; by repeat split.
Qed.

Lemma alike_findPythonExecutable_from cands :
  env_exec env = env_exec env' →
  alike (findPythonExecutable_from env cands) (findPythonExecutable_from env' cands).
Proof.
  intros E. induction cands as [|cmd rest IH]; simpl.
  - apply alike_bind; [apply alike_console|intros _; apply alike_throw].
  - apply alike_try_catch; [|done].
    apply alike_bind; [by apply alike_execPromise|intros _].
    apply alike_bind; [apply alike_console|intros _; apply alike_pure].
Qed.

End AlikeCalls.

Section AlikeStage.

Context {JSON : Type} (env : Env JSON).

(** The first half of the handler goes the same way whatever the value
    of [HUGGING_FACE_TOKEN]: same completion, same files, same system
    calls, same two paths.  Only the console can differ. *)
Lemma stage_token_independent t request :
  alike (stage (with_token env t) request) (stage env request).
Proof.
  unfold stage. apply alike_bind.
  { intros s s' Hs. unfold formData. by destruct (req_formData request). }
  intros form. cbv zeta. destruct (fd_mediaFile form) as [mf|]; [|apply alike_return].
  apply alike_bind; [apply alike_when_warn|intros _].
  apply alike_bind; [apply alike_existsSync|intros present].
  apply alike_bind.
  { destruct (negb present); [by apply alike_mkdirSync|apply alike_pure]. }
  intros _. apply alike_bind.
  { apply alike_modify. intros s s' (?&?&?&?). by repeat split. }
  intros _. apply alike_bind; [by apply alike_writeFile|intros _].
  apply alike_bind; [apply alike_console|intros _].
  apply alike_bind.
  { apply alike_modify. intros s s' (?&?&?&?). by repeat split. }
  intros _. apply alike_bind; [by apply alike_findPythonExecutable_from|intros py].
  apply alike_pure.
Qed.

End AlikeStage.

(** ** The handler, seen from outside *)

Section Outside.

Context {JSON : Type} (env : Env JSON).

(** From the end of the first half to the start of the [finally] block:
    the two variables keep their values, and the only events added are
    the call of the engine and reads of its output artifact, both only
    when the first half handed over a job and the worker script is in
    place. *)
Lemma POST_body_events request f :
  extends (snd (stage env request (initial f))) (snd (POST_body env request (initial f)))
  ∧ st_tempFilePath (snd (POST_body env request (initial f)))
    = st_tempFilePath (snd (stage env request (initial f)))
  ∧ st_outputJsonPath (snd (POST_body env request (initial f)))
    = st_outputJsonPath (snd (stage env request (initial f)))
  ∧ (∀ e, e ∈ st_trace (snd (POST_body env request (initial f))) →
       e ∈ st_trace (snd (stage env request (initial f)))
       ∨ ∃ job s1, stage env request (initial f) = (Normal job, s1)
           ∧ is_Some (st_fs s1 !! scriptPath env)
           ∧ (e = EvExec (job_command env job) (Some exec_options)
              ∨ e = EvReadFile (job_output job))).
Proof.
  unfold POST_body, POST_try, POST_catch, try_catch.
  unfold existsSync, console, modify, get_state, return_, mbind, M_bind, bind, pure.
  destruct (stage env request (initial f)) as [[job|r|e'] s1] eqn:Hst; simpl.
  - destruct (bool_decide (is_Some (st_fs s1 !! scriptPath env))) eqn:Hsc; simpl.
    + apply bool_decide_eq_true in Hsc.
      destruct (launch_spec env job s1) as (s0 & -> & Hext & _ & Ht & Hi & Ho & _).
      pose proof (run_engine_trace env (job_command env job) (job_output job) s0) as Htr.
      destruct (run_engine_returns env (job_command env job) (job_output job) s0)
        as (r & s' & Er & Hext' & _ & Hi' & Ho' & _).
      rewrite Er in *. simpl in *. rewrite Hi', Ho', Hi, Ho.
      split; [by eapply extends_trans|]. split; [done|]. split; [done|].
      intros e He. apply Htr in He as [He|He]; [left; by rewrite <- Ht|].
      right. exists job, s1. eauto.
    + split; [solve_extends|]. split; [done|]. split; [done|]. auto.
  - split; [solve_extends|]. split; [done|]. split; [done|]. auto.
  - split; [solve_extends|]. split; [done|]. split; [done|]. auto.
Qed.

(** The [finally] block only adds deletions. *)
Lemma POST_events request f :
  extends (snd (POST_body env request (initial f))) (snd (POST env request (initial f)))
  ∧ ∀ e, e ∈ st_trace (snd (POST env request (initial f))) →
      e ∈ st_trace (snd (POST_body env request (initial f))) ∨ ∃ p ok, e = EvUnlink p ok.
Proof.
  destruct (POST_finish env request f) as (s2 & E & Hfin).
  destruct (POST_finally_spec env (snd (POST_body env request (initial f))))
    as (s2' & E2 & Hext & _ & _ & Hfr).
  rewrite E2 in Hfin. simplify_eq. rewrite E. simpl. by split.
Qed.

(** Every command the handler runs is a probe of the interpreter search,
    run without options, or the command of the job, run with the
    options of line 120. *)
Lemma POST_commands request f cmd o :
  EvExec cmd o ∈ st_trace (snd (POST env request (initial f))) →
  (o = None ∧ ∃ cand, cand ∈ candidates ∧ cmd = probe_command cand)
  ∨ (o = Some exec_options
     ∧ ∃ job s1, stage env request (initial f) = (Normal job, s1)
         ∧ is_Some (st_fs s1 !! scriptPath env)
         ∧ cmd = job_command env job).
Proof.
  intros He. apply POST_events in He as [He|(? & ? & ?)]; [|done].
  apply POST_body_events in He as [He|(job & s1 & Hst & Hsc & [He|He])]; [|..|done].
  - left. destruct (stage env request (initial f)) as [c s1] eqn:Hst.
    destruct (stage_spec env _ _ _ _ Hst) as ((_ & _ & Hex & _) & _). by apply Hex.
  - right. injection He as -> ->. eauto 10.
Qed.

(** C2: when the input artifact of the upload was written, in full or in
    part, it has its deletion attempted if it is there when the
    [finally] block starts; once it was written in full, the same holds
    of the output artifact, the file at the path that the command of the
    engine names after [--output-json].  Nothing is deleted before the
    [finally] block.  The answer is the one the [try]/[catch] part
    produced, and it does not depend on how [unlink] fares. *)
Theorem cleanup_attempted_on_every_path request f form mf ok :
  req_formData request = inl form →
  fd_mediaFile form = Some mf →
  let input := tempFilePath_of env (env_now env) (mf_name mf) in
  let output := outputJsonPath_of env input in
  let before := snd (POST_body env request (initial f)) in
  let after := snd (POST env request (initial f)) in
  EvWriteFile input ok ∈ st_trace before →
  (is_Some (st_fs before !! input) → ∃ ok', EvUnlink input ok' ∈ st_trace after)
  ∧ (ok = true → is_Some (st_fs before !! output) →
     ∃ ok', EvUnlink output ok' ∈ st_trace after)
  ∧ (∀ cmd, EvExec cmd (Some exec_options) ∈ st_trace after →
       EvWriteFile input true ∈ st_trace before
       ∧ ∃ py diarize,
           let parts := commandParts env py input output diarize
                          (env_HUGGING_FACE_TOKEN env) in
           cmd = Js.join " " parts
           ∧ parts !! 2%nat = Some ("--input " +:+ quoted input)
           ∧ parts !! 3%nat = Some ("--output-json " +:+ quoted output))
  ∧ (∀ p ok', EvUnlink p ok' ∉ st_trace before)
  ∧ (∃ r, fst (POST_body env request (initial f)) = Returned r
        ∧ fst (POST env request (initial f)) = Resolved (Some r))
  ∧ (∀ u, fst (POST (with_unlink env u) request (initial f))
          = fst (POST env request (initial f))).
Proof.
  intros Hform Hmf input output before after Hw.
  destruct (POST_body_frame env request f) as ((r & Hr) & Hwf & Hunl & Ti & To).
  destruct (POST_body_events request f) as (Hext & Hi & Ho & Hev).
  destruct (POST_finish env request f) as (s2 & E & Hfin).
  destruct (POST_finally_spec env (snd (POST_body env request (initial f))))
    as (s2' & E2 & _ & Hatt & _).
  rewrite E2 in Hfin. simplify_eq.
  destruct (stage env request (initial f)) as [c s1] eqn:Hst.
  destruct (stage_writes env _ _ _ _ Hst) as (Hsw & Hjob).
  destruct (stage_spec env _ _ _ _ Hst) as (_ & Hsd).
  simpl in Hext, Hi, Ho, Hev.
  assert (∀ ok0, EvWriteFile input ok0 ∈ st_trace before → ok0 = true →
            st_outputJsonPath before = Some output) as Hout.
  { intros ok0 Hin ->. unfold before in *. rewrite Ho.
    apply Hev in Hin as [Hin|(? & ? & _ & _ & [?|?])]; [|done..].
    by destruct (Hsw _ _ Hin) as (_ & _ & _ & _ & _ & ->). }
  subst after. rewrite E. simpl. repeat split.
  - intros Hex. apply Hatt; [left; by eapply Hwf|by eapply Ti, Hwf|done].
  - intros -> Hex. apply Hatt; [right; by eapply Hout|by eapply To, Hout|done].
  - destruct (POST_commands request f cmd (Some exec_options))
      as [[? _]|(_ & job & s1' & Hst' & _ & ->)]; [by rewrite E|done|].
    rewrite Hst in Hst'. simplify_eq.
    destruct (Hjob job eq_refl) as [Hwj _].
    destruct (Hsd job eq_refl)
      as (form' & mf' & Hform' & Hmf' & _ & Hin & _).
    rewrite Hform in Hform'. simplify_eq. fold input in Hin. rewrite <- Hin.
    by eapply extends_trace.
  - destruct (POST_commands request f cmd (Some exec_options))
      as [[? _]|(_ & job & s1' & Hst' & _ & ->)]; [by rewrite E|done|].
    rewrite Hst in Hst'. simplify_eq.
    destruct (Hsd job eq_refl)
      as (form' & mf' & Hform' & Hmf' & _ & Hin & Hou & _).
    rewrite Hform in Hform'. simplify_eq. fold input in Hin.
    exists (job_pythonPath job), (job_diarize job).
    unfold job_command, command. rewrite Hou, Hin. by repeat split.
  - apply Hunl.
  - exists r. by rewrite Hr.
  - intros u. destruct (POST_finish (with_unlink env u) request f) as (s3 & -> & _).
    simpl. by rewrite POST_body_unlink_free.
Qed.

(** C4, as the code has it.  The two limits are ten minutes and 10 MiB.
    Every command the handler runs is an interpreter probe, run without
    options, or the command of the job, run with these two limits.  Once
    the first half of the handler is through and the worker script is in
    place, the command of the job is run; if [exec] rejects, whatever the
    exit information on its error, the handler resolves with one and the
    same HTTP 500 answer, built from [stderr], [stdout] and the message
    only; the error as a whole, exit information included, goes to the
    console. *)
Theorem engine_limits_and_uniform_failure request f :
  timeout exec_options = (10 * 60 * 1000)%N
  ∧ maxBuffer exec_options = (10 * 2 ^ 20)%N
  ∧ (∀ cmd o, EvExec cmd o ∈ st_trace (snd (POST env request (initial f))) →
       (o = None ∧ ∃ cand, cand ∈ candidates ∧ cmd = probe_command cand)
       ∨ (o = Some exec_options
          ∧ ∃ job s1, stage env request (initial f) = (Normal job, s1)
              ∧ cmd = job_command env job))
  ∧ (∀ job s1,
       stage env request (initial f) = (Normal job, s1) →
       is_Some (st_fs s1 !! scriptPath env) →
       EvExec (job_command env job) (Some exec_options)
         ∈ st_trace (snd (POST env request (initial f)))
       ∧ ∀ m c out err info f2,
           env_exec env (job_command env job) (Some exec_options) (st_fs s1)
             = (ExecFail (ExecError m c out err info), f2) →
           fst (POST env request (initial f))
             = Resolved (Some (respond 500
                 (ErrorBody "Failed to execute transcription script."
                    (Some ((if Js.truthy err then err
                            else if Js.truthy out then out
                            else if Js.truthy m then m
                            else "Unknown execution error")
                           +:+ partial_output env f2 (job_output job))))))
           ∧ {| log_level := LError;
                log_args := [AStr "Error executing Python script:";
                             AErr (ExecError m c out err info)] |}
               ∈ st_console (snd (POST env request (initial f)))).
Proof.
  split; [done|]. split; [done|]. split.
  { intros cmd o He.
    apply POST_commands in He as [?|(? & job & s1 & ? & _ & ?)]; [by left|right].
    eauto. }
  intros job s1 Hst Hsc.
  destruct (POST_after_launch env _ _ _ _ Hst Hsc) as (s0 & s2 & E & Hfs & _ & Hext & _).
  split.
  - rewrite E. simpl.
    destruct (run_engine_returns env (job_command env job) (job_output job) s0)
      as (r & s' & Er & _ & _ & _ & _ & Hexec & _).
    rewrite Er in Hext. by eapply extends_trace.
  - intros m c out err info f2 Hex. split.
    + by rewrite (engine_failure_response env _ _ _ _ _ _ Hst Hsc Hex).
    + rewrite E. simpl. rewrite <- Hfs in Hex.
      eapply extends_console; [done|].
      by apply (run_engine_failure_logged env _ _ _ _ _ Hex).
Qed.

(** C7: when the engine fails, the answer is the failure with its
    captured streams, [stderr], else [stdout], else the message of the
    error; the raw content of the output artifact is appended when the
    artifact is there and readable, and nothing changes when it is
    absent, is not a file or cannot be read. *)
Theorem failure_recovers_partial_output request f job s1 m c out err info f2 :
  stage env request (initial f) = (Normal job, s1) →
  is_Some (st_fs s1 !! scriptPath env) →
  env_exec env (job_command env job) (Some exec_options) (st_fs s1)
    = (ExecFail (ExecError m c out err info), f2) →
  let streams := if Js.truthy err then err
                 else if Js.truthy out then out
                 else if Js.truthy m then m
                 else "Unknown execution error" in
  ∃ details,
    fst (POST env request (initial f))
      = Resolved (Some (respond 500
          (ErrorBody "Failed to execute transcription script." (Some details))))
    ∧ (∀ d, f2 !! job_output job = Some (File d) →
            env_readFile_error env (job_output job) = None →
            details = streams +:+ Js.nl +:+ "Partial output: " +:+ d)
    ∧ (f2 !! job_output job = None → details = streams)
    ∧ (f2 !! job_output job = Some Dir → details = streams)
    ∧ (is_Some (env_readFile_error env (job_output job)) → details = streams).
Proof.
  intros Hst Hsc Hex streams. eexists. split; [by eapply engine_failure_response|].
  change (errorDetails_of (ExecError m c out err info)) with streams.
  unfold partial_output. repeat split.
  - by intros d -> ->.
  - intros ->. apply append_empty.
  - intros ->. apply append_empty.
  - intros [msg ->]. destruct (f2 !! job_output job) as [[|d]|]; apply append_empty.
Qed.


(** C10, as the code has it: the first half of the handler is through,
    so the upload was written and an interpreter was found by a probe,
    and the worker script is missing.  The answer is HTTP 500 with the
    "script not found" error, no command was run but the interpreter
    probes, and the input artifact is deleted by the [finally] block. *)
Theorem missing_script_is_500 request f job s1 d :
  stage env request (initial f) = (Normal job, s1) →
  st_fs s1 !! scriptPath env = None →
  st_fs s1 !! job_input job = Some (File d) →
  (job_pythonPath job ∈ candidates
   ∧ EvExec (probe_command (job_pythonPath job)) None
       ∈ st_trace (snd (POST env request (initial f)))
   ∧ EvWriteFile (job_input job) true
       ∈ st_trace (snd (POST env request (initial f))))
  ∧ fst (POST env request (initial f))
    = Resolved (Some (respond 500
        (ErrorBody "Transcription script not found on server" None)))
  ∧ (∀ cmd o, EvExec cmd o ∈ st_trace (snd (POST env request (initial f))) →
       o = None ∧ ∃ cand, cand ∈ candidates ∧ cmd = probe_command cand)
  ∧ (∃ ok, EvUnlink (job_input job) ok ∈ st_trace (snd (POST env request (initial f))))
  ∧ (env_unlink_error env (job_input job) = None →
     st_fs (snd (POST env request (initial f))) !! job_input job = None).
Proof.
  intros Hst Hsc Hin.
  destruct (stage_spec env _ _ _ _ Hst) as ((_ & _ & Hex & Ti & _) & Hsd).
  destruct (Hsd job eq_refl) as (_ & _ & _ & _ & _ & _ & _ & Hcand & Hi & _ & _).
  split.
  { destruct (stage_writes env _ _ _ _ Hst) as (_ & Hjob).
    destruct (Hjob job eq_refl) as [Hwj Hpj].
    destruct (POST_body_events request f) as (Hext & _).
    destruct (POST_events request f) as (Hext' & _).
    rewrite Hst in Hext. simpl in Hext.
    split; [done|].
    split; eapply extends_trace, extends_trace; eauto. }
  destruct (POST_finish env request f) as (s2 & -> & Hfin). revert Hfin.
  unfold POST_body, POST_try, try_catch.
  unfold existsSync, console, modify, get_state, return_, mbind, M_bind, bind, pure.
  rewrite Hst. simpl. rewrite Hsc. simpl. intros Hfin.
  match type of Hfin with POST_finally env ?s = _ =>
    destruct (POST_finally_spec env s) as (s2' & E & _ & Hatt & Hdel & Hfr) end.
  rewrite E in Hfin. simplify_eq. simpl in *.
  split; [done|]. repeat split.
  - apply Hfr in H as [H|(? & ? & ?)]; [|done]. by apply Hex in H as [? _].
  - apply Hfr in H as [H|(? & ? & ?)]; [|done]. by apply Hex in H as [_ ?].
  - apply Hatt; eauto.
  - intros Hu. by edestruct Hdel as [? _]; eauto.
Qed.

End Outside.

(** ** Sample runs *)

(** A failing engine that wrote nothing to its streams: the token of
    the sample host is in the answer and on the console. *)
Lemma token_reaches_details_and_console_sample :
  let env := sample_env (Some "hf_secret") (engine_fails "" "" (exited 1)) in
  let run := POST env (sample_request "a.wav" (Some "true")) (initial sample_fs) in
  (∃ r d, response_of (fst run) = Some r
          ∧ status r = 500%N
          ∧ details_of r = Some d
          ∧ Js.includes "hf_secret" d = true)
  ∧ console_mentions "hf_secret" (st_console (snd run)) = true.
Proof.
  eapply (token_reaches_details_and_console
            (sample_env (Some "hf_secret") (engine_fails "" "" (exited 1)))
            (sample_request "a.wav" (Some "true")) sample_fs
            (sample_job true)
            (snd (stage (sample_env (Some "hf_secret") (engine_fails "" "" (exited 1)))
                        (sample_request "a.wav" (Some "true")) (initial sample_fs)))
            "hf_secret" (exited 1)
            (st_fs (snd (stage (sample_env (Some "hf_secret") (engine_fails "" "" (exited 1)))
                               (sample_request "a.wav" (Some "true")) (initial sample_fs))))).
  - reflexivity.
  - apply (bool_decide_unpack _). vm_compute. exact I.
  - reflexivity.
  - reflexivity.
  - reflexivity.
  - reflexivity.
Defined.

(** C3 fails in the code: an upload whose name holds double quotes ends
    the quoted argument early.  The shell reads ten words where the
    handler wrote four arguments and two options, and the engine is
    handed a [--diarize] that the request did not ask for. *)
Theorem quotes_in_name_split_the_arguments :
  let env := sample_env None (engine_idle "" "") in
  let request := sample_request quoting_name None in
  let input := tempFilePath_of env 1 quoting_name in
  let job := {| job_input := input; job_output := outputJsonPath_of env input;
                job_pythonPath := "python3"; job_diarize := false |} in
  fst (stage env request (initial sample_fs)) = Normal job
  ∧ EvExec (job_command env job) (Some exec_options)
      ∈ st_trace (snd (POST env request (initial sample_fs)))
  ∧ Shell.words (job_command env job)
    = [ "python3"; "/app/src/whisper/transcribe.py";
        "--input"; "/tmp/whisper-uploads/1-a"; "--diarize"; "b.wav";
        "--output-json"; "/tmp/whisper-uploads/1-a"; "--diarize"; "b.json" ].
Proof.
  intros env request input job.
  assert (stage env request (initial sample_fs)
          = (Normal job, snd (stage env request (initial sample_fs)))) as Hst
    by reflexivity.
  assert (is_Some (st_fs (snd (stage env request (initial sample_fs))) !! scriptPath env))
    as Hsc by (apply (bool_decide_unpack _); vm_compute; exact I).
  split; [by rewrite Hst|]. split; [|vm_compute; reflexivity].
  destruct (POST_after_launch env _ _ _ _ Hst Hsc) as (s0 & s2 & E & _ & _ & Hext & _).
  destruct (run_engine_returns env (job_command env job) (job_output job) s0)
    as (r & s' & Er & _ & _ & _ & _ & Hexec & _).
  rewrite Er in Hext. rewrite E. by eapply extends_trace.
Qed.

(** The answer to a run that timed out is the answer to a run that
    exited with status 1: nothing in it tells the two apart. *)
Lemma timeout_answered_like_exit :
  fst (POST (sample_env None (engine_fails "" "CUDA out of memory" timed_out))
            (sample_request "a.wav" None) (initial sample_fs))
  = fst (POST (sample_env None (engine_fails "" "CUDA out of memory" (exited 1)))
              (sample_request "a.wav" None) (initial sample_fs))
  ∧ timed_out ≠ exited 1.
Proof. split; [vm_compute; reflexivity|discriminate]. Qed.

(** Two uploads at the same time whose names differ in the extension
    only: one output artifact for both. *)
Lemma same_stem_same_output :
  let env := sample_env None (engine_idle "" "") in
  "a.mp3" ≠ "a.wav"
  ∧ outputJsonPath_of env (tempFilePath_of env 1 "a.mp3")
    = outputJsonPath_of env (tempFilePath_of env 1 "a.wav").
Proof. split; [discriminate|vm_compute; reflexivity]. Qed.

Lemma artifact_names_distinct_sample :
  let env := sample_env None (engine_idle "" "") in
  tempFilePath_of env 1 "a.wav" ≠ tempFilePath_of env 2 "b.wav"
  ∧ (outputJsonPath_of env (tempFilePath_of env 1 "a.wav")
     = outputJsonPath_of env (tempFilePath_of env 2 "b.wav")
     ↔ 1%N = 2%N ∧ stem "a.wav" = stem "b.wav").
Proof.
  apply (artifact_names_distinct (sample_env None (engine_idle "" "")) 1 2 "a.wav" "b.wav").
  - reflexivity.
  - reflexivity.
  - discriminate.
Defined.

Lemma success_echoes_transcription_sample :
  fst (POST (sample_env None (engine_writes "true"))
            (sample_request "a.wav" None) (initial sample_fs))
  = Resolved (Some (respond 200 (TranscriptionBody LTrue))).
Proof.
  eapply (success_echoes_transcription
            (sample_env None (engine_writes "true"))
            (sample_request "a.wav" None) sample_fs (sample_job false)
            (snd (stage (sample_env None (engine_writes "true"))
                        (sample_request "a.wav" None) (initial sample_fs)))
            "done" ""
            (<["/tmp/whisper-uploads/1-a.json" := File "true"]>
               (st_fs (snd (stage (sample_env None (engine_writes "true"))
                                  (sample_request "a.wav" None) (initial sample_fs)))))
            "true" LTrue).
  - reflexivity.
  - apply (bool_decide_unpack _). vm_compute. exact I.
  - reflexivity.
  - reflexivity.
  - reflexivity.
  - reflexivity.
Defined.


Lemma failure_recovers_partial_output_sample :
  let env := sample_env None (engine_fails_leaving "[1, 2" (exited 1)) in
  ∃ details,
    fst (POST env (sample_request "a.wav" None) (initial sample_fs))
      = Resolved (Some (respond 500
          (ErrorBody "Failed to execute transcription script." (Some details))))
    ∧ details = "Traceback" +:+ Js.nl +:+ "Partial output: " +:+ "[1, 2".
Proof.
  intros env.
  destruct (failure_recovers_partial_output env
              (sample_request "a.wav" None) sample_fs (sample_job false)
              (snd (stage env (sample_request "a.wav" None) (initial sample_fs)))
              ("Command failed: " +:+ job_command env (sample_job false)
               +:+ Js.nl +:+ "Traceback")
              (job_command env (sample_job false)) "" "Traceback" (exited 1)
              (<["/tmp/whisper-uploads/1-a.json" := File "[1, 2"]>
                 (st_fs (snd (stage env (sample_request "a.wav" None)
                                    (initial sample_fs))))))
    as (details & Hresp & Hpartial & _).
  - reflexivity.
  - apply (bool_decide_unpack _). vm_compute. exact I.
  - reflexivity.
  - exists details. split; [exact Hresp|].
    apply (Hpartial "[1, 2"); reflexivity.
Defined.


(** The worker script is missing and no interpreter is found either:
    the upload is written, and the answer is the one of the outer
    [catch], not the "script not found" error. *)
Lemma no_interpreter_no_script :
  let request := sample_request "a.wav" None in
  empty_fs !! scriptPath bare_env = None
  ∧ EvWriteFile "/tmp/whisper-uploads/1-a.wav" true
      ∈ st_trace (snd (POST bare_env request (initial empty_fs)))
  ∧ fst (POST bare_env request (initial empty_fs))
    = Resolved (Some (respond 500
        (ErrorBody "An unexpected error occurred."
                   (Some "Python executable not found.")))).
Proof.
  split; [reflexivity|]. split; [|vm_compute; reflexivity].
  vm_compute. do 1 constructor. constructor.
Qed.

Lemma missing_script_is_500_sample :
  let env := sample_env None (engine_writes "null") in
  let request := sample_request "a.wav" None in
  let job := sample_job false in
  (job_pythonPath job ∈ candidates
   ∧ EvExec (probe_command (job_pythonPath job)) None
       ∈ st_trace (snd (POST env request (initial empty_fs)))
   ∧ EvWriteFile (job_input job) true
       ∈ st_trace (snd (POST env request (initial empty_fs))))
  ∧ fst (POST env request (initial empty_fs))
    = Resolved (Some (respond 500
        (ErrorBody "Transcription script not found on server" None)))
  ∧ (∀ cmd o, EvExec cmd o ∈ st_trace (snd (POST env request (initial empty_fs))) →
       o = None ∧ ∃ cand, cand ∈ candidates ∧ cmd = probe_command cand)
  ∧ (∃ ok, EvUnlink (job_input job) ok ∈ st_trace (snd (POST env request (initial empty_fs))))
  ∧ (env_unlink_error env (job_input job) = None →
     st_fs (snd (POST env request (initial empty_fs))) !! job_input job = None).
Proof.
  eapply (missing_script_is_500
            (sample_env None (engine_writes "null"))
            (sample_request "a.wav" None) empty_fs (sample_job false)
            (snd (stage (sample_env None (engine_writes "null"))
                        (sample_request "a.wav" None) (initial empty_fs)))
            "RIFF").
  - reflexivity.
  - reflexivity.
  - reflexivity.
Defined.

Lemma engine_limits_and_uniform_failure_sample :
  let env := sample_env None (engine_fails "" "CUDA out of memory" timed_out) in
  let request := sample_request "a.wav" None in
  let cmd := job_command env (sample_job false) in
  EvExec cmd (Some {| timeout := 600000; maxBuffer := 10485760 |})
    ∈ st_trace (snd (POST env request (initial sample_fs)))
  ∧ fst (POST env request (initial sample_fs))
    = Resolved (Some (respond 500
        (ErrorBody "Failed to execute transcription script."
                   (Some "CUDA out of memory"))))
  ∧ {| log_level := LError;
       log_args := [AStr "Error executing Python script:";
                    AErr (exec_error cmd "" "CUDA out of memory" timed_out)] |}
      ∈ st_console (snd (POST env request (initial sample_fs))).
Proof.
  intros env request cmd.
  destruct (engine_limits_and_uniform_failure env request sample_fs)
    as (_ & _ & _ & Hjob).
  destruct (Hjob (sample_job false) (snd (stage env request (initial sample_fs))))
    as (Hexec & Hfail).
  - reflexivity.
  - apply (bool_decide_unpack _). vm_compute. exact I.
  - destruct (Hfail ("Command failed: " +:+ cmd +:+ Js.nl +:+ "CUDA out of memory")
                cmd "" "CUDA out of memory" timed_out
                (st_fs (snd (stage env request (initial sample_fs)))))
      as (Hresp & Hlog); [reflexivity|].
    split; [exact Hexec|]. split; [exact Hresp|exact Hlog].
Defined.

Lemma cleanup_attempted_on_every_path_sample :
  let env := sample_env None (engine_writes "true") in
  let request := sample_request "a.wav" None in
  let after := snd (POST env request (initial sample_fs)) in
  (∃ ok, EvUnlink "/tmp/whisper-uploads/1-a.wav" ok ∈ st_trace after)
  ∧ (∃ ok, EvUnlink "/tmp/whisper-uploads/1-a.json" ok ∈ st_trace after).
Proof.
  intros env request after.
  destruct (cleanup_attempted_on_every_path env request sample_fs
              {| fd_mediaFile := Some {| mf_name := "a.wav"; mf_data := "RIFF" |};
                 fd_diarize := None |}
              {| mf_name := "a.wav"; mf_data := "RIFF" |} true)
    as (Hin & Hout & _).
  - reflexivity.
  - reflexivity.
  - vm_compute. do 1 constructor. constructor.
  - split.
    + apply Hin. apply (bool_decide_unpack _). vm_compute. exact I.
    + apply Hout; [reflexivity|]. apply (bool_decide_unpack _). vm_compute. exact I.
Defined.

(** ** The ways out before the engine *)

Section EarlyExits.

Context {JSON : Type} (env : Env JSON).

(** X1: a form without a media file is answered with HTTP 400 and the
    world is left as it was: no file written, no command run, nothing
    logged, nothing deleted. *)
Theorem no_media_file_is_400 request f form :
  req_formData request = inl form →
  fd_mediaFile form = None →
  POST env request (initial f)
  = (Resolved (Some (respond 400 (ErrorBody "No media file uploaded" None))),
     initial f).
Proof.
  intros Hform Hmf.
  unfold POST, try_finally, POST_body, POST_try, try_catch, stage, formData.
  unfold mbind, M_bind, bind. rewrite Hform. simpl. by rewrite Hmf.
Qed.

(** X2: when [request.formData()] rejects, the error is logged and
    answered with HTTP 500, its message as details ([String(error)] when
    the message is empty); no system call is made. *)
Theorem rejected_form_is_500 request f e :
  req_formData request = inr e →
  POST env request (initial f)
  = (Resolved (Some (respond 500
       (ErrorBody "An unexpected error occurred."
          (Some (if Js.truthy (err_message e) then err_message e
                 else err_toString e))))),
     with_log {| log_level := LError; log_args := [AStr "API Error:"; AErr e] |}
       (initial f)).
Proof.
  intros Hform.
  unfold POST, try_finally, POST_body, POST_try, try_catch, stage, formData.
  unfold mbind, M_bind, bind. rewrite Hform. reflexivity.
Qed.

(** X3: the interpreter search probes the candidates in the order of
    the list and stops at the first probe that succeeds.  When it
    returns a candidate, the probes run are those of the candidates up
    to and including it; when it throws, every candidate was probed and
    the error is the one of line 44.  Its outcome is the first candidate
    whose probe succeeds, each probe seeing the files the one before
    left.  It never answers the request itself and leaves the two path
    variables alone. *)
Theorem search_probes_in_order cands s :
  (∀ py s', findPythonExecutable_from env cands s = (Normal py, s') →
     ∃ before after, cands = before ++ py :: after
       ∧ st_trace s' = st_trace s ++ map probe_event (before ++ [py]))
  ∧ (∀ e s', findPythonExecutable_from env cands s = (Thrown e, s') →
       e = PlainError "Error" "Python executable not found."
       ∧ st_trace s' = st_trace s ++ map probe_event cands
       ∧ {| log_level := LError;
            log_args := [AStr "Could not find Python executable."] |}
           ∈ st_console s')
  ∧ (∀ r s', findPythonExecutable_from env cands s ≠ (Returned r, s'))
  ∧ fst (findPythonExecutable_from env cands s)
    = match fst (first_answering env cands (st_fs s)) with
      | Some py => Normal py
      | None => Thrown (PlainError "Error" "Python executable not found.")
      end
  ∧ st_fs (snd (findPythonExecutable_from env cands s))
    = snd (first_answering env cands (st_fs s))
  ∧ st_tempFilePath (snd (findPythonExecutable_from env cands s)) = st_tempFilePath s
  ∧ st_outputJsonPath (snd (findPythonExecutable_from env cands s)) = st_outputJsonPath s.
Proof.
  revert s. induction cands as [|cmd rest IH]; intros s.
  - simpl. unfold_calls. simpl. repeat split; try done.
    all: simplify_eq; simpl; rewrite ?app_nil_r; try done; list_mem.
  - simpl. unfold try_catch, execPromise, console, modify, get_state,
      mbind, M_bind, bind, throw, pure. simpl.
    destruct (env_exec env (probe_command cmd) None (st_fs s)) as [[out err|e0] f1]; simpl.
    + split; [|by repeat split].
      intros py s' [= <- <-]. exists [], rest. by split.
    + match goal with |- context [findPythonExecutable_from env rest ?S] =>
        destruct (IH S) as (Hn & Ht & Hr & Hc & Hf & Hi & Ho) end.
      simpl in *. split; [|split; [|split; [|split; [|split; [|split]]]]]; try done.
      * intros py s' H. destruct (Hn _ _ H) as (before & after & -> & Htr).
        exists (cmd :: before), after. split; [done|].
        rewrite Htr. simpl. by rewrite <- app_assoc.
      * intros e s' H. destruct (Ht _ _ H) as (-> & Htr & Hlog).
        split; [done|]. split; [|done].
        rewrite Htr. simpl. by rewrite <- app_assoc.
Qed.

(** X11: an error thrown in the first half of the handler (the form,
    the upload directory, the write of the upload, the interpreter
    search) is logged and answered with HTTP 500 "An unexpected error
    occurred.", its message as details; the engine is not run. *)
Theorem thrown_in_first_half_is_500 request f e s1 :
  stage env request (initial f) = (Thrown e, s1) →
  fst (POST env request (initial f))
  = Resolved (Some (respond 500
      (ErrorBody "An unexpected error occurred."
         (Some (if Js.truthy (err_message e) then err_message e
                else err_toString e)))))
  ∧ {| log_level := LError; log_args := [AStr "API Error:"; AErr e] |}
      ∈ st_console (snd (POST env request (initial f)))
  ∧ (∀ cmd o, EvExec cmd o ∈ st_trace (snd (POST env request (initial f))) →
       o = None ∧ ∃ cand, cand ∈ candidates ∧ cmd = probe_command cand).
Proof.
  intros Hst.
  assert (POST_body env request (initial f)
          = (Returned (respond 500
               (ErrorBody "An unexpected error occurred."
                  (Some (if Js.truthy (err_message e) then err_message e
                         else err_toString e)))),
             with_log {| log_level := LError;
                         log_args := [AStr "API Error:"; AErr e] |} s1)) as Hbody.
  { unfold POST_body, POST_try, POST_catch, try_catch.
    unfold console, modify, return_, mbind, M_bind, bind. by rewrite Hst. }
  destruct (POST_finish env request f) as (s2 & E & _).
  destruct (POST_events env request f) as (Hext & _).
  split; [by rewrite E, Hbody|]. split.
  - eapply extends_console; [exact Hext|]. rewrite Hbody. simpl. list_mem.
  - intros cmd o He.
    destruct (POST_commands env request f cmd o He)
      as [?|(_ & job & s1' & Hst' & _)]; [done|congruence].
Qed.

End EarlyExits.

(** ** The output artifact that cannot be used *)

Section Unusable.

Context {JSON : Type} (env : Env JSON).

Lemma run_engine_unparsable cmd output s out err f2 doc msg :
  env_exec env cmd (Some exec_options) (st_fs s) = (ExecOk out err, f2) →
  f2 !! output = Some (File doc) →
  env_readFile_error env output = None →
  env_JSON_parse env doc = inr msg →
  fst (run_engine env cmd output s)
  = Returned (respond 500
      (ErrorBody "Failed to execute transcription script."
         (Some ((if Js.truthy msg then msg else "Unknown execution error")
                +:+ Js.nl +:+ "Partial output: " +:+ doc))))
  ∧ EvReadFile output ∈ st_trace (snd (run_engine env cmd output s)).
Proof.
  intros E Hout Hread Hparse.
  unfold run_engine. unfold_calls. simpl. rewrite E. simpl.
  destruct (Js.truthy err);
    repeat (progress (simpl; rewrite ?Hout, ?Hread, ?Hparse));
    (split; [done|list_mem]).
Qed.

Lemma run_engine_unreadable cmd output s out err f2 doc msg :
  env_exec env cmd (Some exec_options) (st_fs s) = (ExecOk out err, f2) →
  f2 !! output = Some (File doc) →
  env_readFile_error env output = Some msg →
  fst (run_engine env cmd output s)
  = Returned (respond 500
      (ErrorBody "Failed to execute transcription script."
         (Some (if Js.truthy msg then msg else "Unknown execution error")))).
Proof.
  intros E Hout Hread.
  unfold run_engine. unfold_calls. simpl. rewrite E. simpl.
  by destruct (Js.truthy err);
    repeat (progress (simpl; rewrite ?Hout, ?Hread)).
Qed.

(** X4: the engine exits with status zero and leaves a readable file
    that is not valid JSON.  The [SyntaxError] of [JSON.parse] lands in
    the [catch] block meant for the engine: the answer is HTTP 500
    "Failed to execute transcription script.", and its details are the
    message of the syntax error followed by the raw content of the file,
    which is read a second time. *)
Theorem invalid_json_is_an_execution_failure request f job s1 out err f2 doc msg :
  stage env request (initial f) = (Normal job, s1) →
  is_Some (st_fs s1 !! scriptPath env) →
  env_exec env (job_command env job) (Some exec_options) (st_fs s1)
    = (ExecOk out err, f2) →
  f2 !! job_output job = Some (File doc) →
  env_readFile_error env (job_output job) = None →
  env_JSON_parse env doc = inr msg →
  fst (POST env request (initial f))
  = Resolved (Some (respond 500
      (ErrorBody "Failed to execute transcription script."
         (Some ((if Js.truthy msg then msg else "Unknown execution error")
                +:+ Js.nl +:+ "Partial output: " +:+ doc))))).
Proof.
  intros Hst Hsc Hex Hout Hread Hparse.
  destruct (POST_after_launch env _ _ _ _ Hst Hsc) as (s0 & s2 & -> & Hfs & _).
  simpl. rewrite <- Hfs in Hex.
  by destruct (run_engine_unparsable _ _ _ _ _ _ _ _ Hex Hout Hread Hparse) as [-> _].
Qed.

(** X5: the engine exits with status zero and leaves a file that cannot
    be read.  The read error lands in the same [catch] block: HTTP 500
    "Failed to execute transcription script." with the message of the
    read error as details; the second read fails too and adds nothing. *)
Theorem unreadable_output_is_an_execution_failure request f job s1 out err f2 doc msg :
  stage env request (initial f) = (Normal job, s1) →
  is_Some (st_fs s1 !! scriptPath env) →
  env_exec env (job_command env job) (Some exec_options) (st_fs s1)
    = (ExecOk out err, f2) →
  f2 !! job_output job = Some (File doc) →
  env_readFile_error env (job_output job) = Some msg →
  fst (POST env request (initial f))
  = Resolved (Some (respond 500
      (ErrorBody "Failed to execute transcription script."
         (Some (if Js.truthy msg then msg else "Unknown execution error"))))).
Proof.
  intros Hst Hsc Hex Hout Hread.
  destruct (POST_after_launch env _ _ _ _ Hst Hsc) as (s0 & s2 & -> & Hfs & _).
  simpl. rewrite <- Hfs in Hex.
  by rewrite (run_engine_unreadable _ _ _ _ _ _ _ _ Hex Hout Hread).
Qed.

End Unusable.

(** ** What the [finally] block does to the files *)

Section CleanupFiles.

Context {JSON : Type} (env : Env JSON).

Lemma POST_finally_files s :
  ∃ s', POST_finally env s = (Normal tt, s')
    ∧ (∀ q, st_fs s' !! q = st_fs s !! q
            ∨ ((st_tempFilePath s = Some q ∨ st_outputJsonPath s = Some q)
               ∧ st_fs s' !! q = None))
    ∧ (∀ p d, st_tempFilePath s = Some p ∨ st_outputJsonPath s = Some p →
         Js.truthy p = true → st_fs s !! p = Some (File d) →
         env_unlink_error env p = None → st_fs s' !! p = None).
Proof.
  unfold POST_finally, mbind, M_bind, bind, get_state.
  destruct (cleanup_one_spec env "input" (st_tempFilePath s) s)
    as (s1 & -> & E1 & T1 & O1 & A1 & D1 & F1 & R1).
  destruct (cleanup_one_spec env "output" (st_outputJsonPath s1) s1)
    as (s2 & -> & E2 & T2 & O2 & A2 & D2 & F2 & R2).
  exists s2. split; [done|]. rewrite O1 in *. split.
  - intros q. destruct (F2 q) as [-> | (? & ? & _)]; [|by eauto].
    destruct (F1 q) as [-> | (? & ? & _)]; eauto.
  - intros p d [Hp|Hp] Ht Hf Hu.
    + destruct (D1 p d Hp Ht Hf Hu) as [Hn _].
      destruct (F2 p) as [-> | (_ & ? & _)]; done.
    + destruct (F1 p) as [Heq | (_ & Hn & _)].
      * rewrite <- Heq in Hf. by destruct (D2 p d Hp Ht Hf Hu).
      * destruct (F2 p) as [-> | (_ & ? & _)]; done.
Qed.

(** X6: the files of a request whose upload was written in full.  When
    the handler returns, every path other than the two artifacts holds
    what it held when the [finally] block started; an artifact that is a
    file at that point and whose [unlink] does not fail is gone. *)
Theorem cleanup_removes_the_artifacts_only request f form mf :
  req_formData request = inl form →
  fd_mediaFile form = Some mf →
  let input := tempFilePath_of env (env_now env) (mf_name mf) in
  let output := outputJsonPath_of env input in
  let before := snd (POST_body env request (initial f)) in
  let after := snd (POST env request (initial f)) in
  EvWriteFile input true ∈ st_trace before →
  (∀ q, q ≠ input → q ≠ output → st_fs after !! q = st_fs before !! q)
  ∧ (∀ p d, p = input ∨ p = output →
       st_fs before !! p = Some (File d) → env_unlink_error env p = None →
       st_fs after !! p = None).
Proof.
  intros Hform Hmf input output before after Hw.
  destruct (POST_body_frame env request f) as (_ & Hwf & _ & Ti & To).
  destruct (POST_body_events env request f) as (_ & _ & Ho & Hev).
  destruct (POST_finish env request f) as (s2 & E & Hfin).
  destruct (POST_finally_files (snd (POST_body env request (initial f))))
    as (s2' & E2 & Hframe & Hdel).
  rewrite E2 in Hfin. simplify_eq.
  assert (st_tempFilePath before = Some input) as Hi by by eapply Hwf.
  assert (st_outputJsonPath before = Some output) as Hou.
  { unfold before. rewrite Ho.
    apply Hev in Hw as [Hin|(? & ? & _ & _ & [?|?])]; [|done..].
    destruct (stage env request (initial f)) as [c s1] eqn:Hst. simpl in *.
    destruct (stage_writes env _ _ _ _ Hst) as (Hsw & _).
    by destruct (Hsw _ _ Hin) as (_ & _ & _ & _ & _ & ->). }
  subst after. rewrite E. simpl. split.
  - intros q Hqi Hqo. destruct (Hframe q) as [?|([Hq|Hq] & _)]; [done|..].
    + fold before in Hq. congruence.
    + fold before in Hq. congruence.
  - intros p d Hp Hf Hu. apply (Hdel p d); [|..|done|done].
    + fold before. destruct Hp as [-> | ->]; auto.
    + destruct Hp as [-> | ->]; [by apply Ti|by apply To].
Qed.

End CleanupFiles.

(** ** Without diarization the token plays no part *)

Section Yields.

Context {JSON : Type}.

Lemma yields_any {A} (m : M JSON A) : yields (λ _, True) m.
Proof. done. Qed.

Lemma yields_pure {A} (P : A → Prop) a : P a → yields (JSON := JSON) P (pure a).
Proof. by intros H s a' s1 [= <- _]. Qed.

Lemma yields_return {A} (P : A → Prop) r : yields (JSON := JSON) P (return_ r).
Proof. by intros s a s1. Qed.

Lemma yields_bind {A B} (Q : A → Prop) (P : B → Prop) (m : M JSON A) k :
  yields Q m → (∀ a, Q a → yields P (k a)) → yields P (bind m k).
Proof.
  intros Hm Hk s b s2. unfold bind.
  destruct (m s) as [[a|r|e] s1] eqn:E; [|done..].
  apply (Hk a); by eapply Hm.
Qed.

Lemma alike_bind_yields {A B} (P : A → Prop) (m m' : M JSON A) (k k' : A → M JSON B) :
  alike m m' → yields P m → (∀ a, P a → alike (k a) (k' a)) →
  alike (bind m k) (bind m' k').
Proof.
  intros Hm Hy Hk s s' Hs. unfold bind. destruct (Hm s s' Hs) as [E Hw].
  destruct (m s) as [c s1] eqn:Em, (m' s') as [c' s1']. simpl in *. subst c'.
  destruct c as [a|r|e]; simpl; [|done..].
  apply Hk; [by eapply Hy|done].
Qed.

Lemma alike_when b (m m' : M JSON unit) : alike m m' → alike (when b m) (when b m').
Proof. intros H. destruct b; [done|apply alike_pure]. Qed.

Lemma alike_try_finally {A} (m m' : M JSON A) g g' :
  alike m m' → alike g g' → alike (try_finally m g) (try_finally m' g').
Proof.
  intros Hm Hg s s' Hs. unfold try_finally. destruct (Hm s s' Hs) as [E Hw].
  destruct (m s) as [c s1], (m' s') as [c' s1']. simpl in *. subst c'.
  destruct (Hg s1 s1' Hw) as [E' Hw'].
  destruct (g s1) as [d s2], (g' s1') as [d' s2']. simpl in *. subst d'.
  by destruct d.
Qed.

Lemma stage_diarize (env : Env JSON) request form :
  req_formData request = inl form →
  yields (λ job, job_diarize job = bool_decide (fd_diarize form = Some "true"))
         (stage env request).
Proof.
  intros Hform. unfold stage.
  apply (yields_bind (λ a, a = form)).
  { intros s a s1. unfold formData. rewrite Hform. by intros [= <- _]. }
  intros ? ->. cbv zeta. destruct (fd_mediaFile form) as [mf|]; [|apply yields_return].
  do 7 (apply (yields_bind (λ _, True)); [apply yields_any|intros ? _]).
  apply (yields_bind (λ _, True)); [apply yields_any|intros py _].
  by apply yields_pure.
Qed.

End Yields.

Section TokenUnused.

Context {JSON : Type} (env : Env JSON) (t : option string).

Lemma alike_readFile p :
  alike (readFile (with_token env t) p) (readFile env p).
Proof.
  intros s s' (Hf&Ht&?&?). unfold readFile. unfold_calls. simpl. rewrite Hf.
  destruct (st_fs s' !! p) as [[|d]|]; [| destruct (env_readFile_error env p) |];
    unfold same_world; simpl; rewrite ?Ht; by repeat split.
Qed.

Lemma alike_unlink p :
  alike (unlink (with_token env t) p) (unlink env p).
Proof.
  intros s s' (Hf&Ht&?&?). unfold unlink. unfold_calls. simpl. rewrite Hf.
  destruct (st_fs s' !! p) as [[|d]|]; [| destruct (env_unlink_error env p) |];
    unfold same_world; simpl; rewrite ?Hf, ?Ht; by repeat split.
Qed.

Lemma alike_JSON_parse text :
  alike (JSON_parse (with_token env t) text) (JSON_parse env text).
Proof.
  intros s s' Hs. unfold JSON_parse. simpl. by destruct (env_JSON_parse env text).
Qed.

Lemma alike_run_engine cmd output :
  alike (run_engine (with_token env t) cmd output) (run_engine env cmd output).
Proof.
  unfold run_engine. apply alike_try_catch.
  - apply alike_bind; [by apply alike_execPromise|intros [stdout stderr]].
    apply alike_bind; [apply alike_when, alike_console|intros _].
    apply alike_bind; [apply alike_console|intros _].
    apply alike_bind; [apply alike_existsSync|intros created].
    destruct (negb created).
    + apply alike_bind; [apply alike_console|intros _].
      apply alike_bind; [apply alike_console|intros _]. apply alike_return.
    + apply alike_bind; [apply alike_readFile|intros text].
      apply alike_bind; [apply alike_JSON_parse|intros v]. apply alike_return.
  - intros e. apply alike_bind; [apply alike_console|intros _]. cbv zeta.
    apply alike_bind; [apply alike_existsSync|intros present].
    apply alike_bind; [|intros details; apply alike_return].
    destruct present; [|apply alike_pure].
    apply alike_try_catch; [|intros _; apply alike_pure].
    apply alike_bind; [apply alike_readFile|intros text; apply alike_pure].
Qed.

(** Without the diarization flag the command is built without looking
    at the token. *)
Lemma job_command_without_diarize job :
  job_diarize job = false →
  job_command (with_token env t) job = job_command env job.
Proof. intros H. unfold job_command, command, commandParts. by rewrite H. Qed.

Lemma alike_launch job :
  job_diarize job = false →
  alike (launch (with_token env t) job) (launch env job).
Proof.
  intros H. unfold launch. cbv zeta. rewrite job_command_without_diarize by done.
  apply alike_bind; [apply alike_when_warn|intros _].
  apply alike_bind; [apply alike_console|intros _].
  apply alike_run_engine.
Qed.

Lemma alike_POST_body request form :
  req_formData request = inl form →
  fd_diarize form ≠ Some "true" →
  alike (POST_body (with_token env t) request) (POST_body env request).
Proof.
  intros Hform Hd. unfold POST_body. apply alike_try_catch.
  - unfold POST_try.
    eapply alike_bind_yields.
    + apply stage_token_independent.
    + apply stage_diarize. exact Hform.
    + intros job Hjob. simpl in Hjob. rewrite bool_decide_eq_false_2 in Hjob by done.
      apply alike_bind; [apply alike_existsSync|intros present].
      destruct (negb present).
      * apply alike_bind; [apply alike_console|intros _]. apply alike_return.
      * by apply alike_launch.
  - intros e. unfold POST_catch.
    apply alike_bind; [apply alike_console|intros _]. apply alike_return.
Qed.

Lemma alike_cleanup_one what var :
  alike (cleanup_one (with_token env t) what var) (cleanup_one env what var).
Proof.
  unfold cleanup_one. destruct var as [p|]; [|apply alike_pure].
  apply alike_bind.
  { destruct (Js.truthy p); [apply alike_existsSync|apply alike_pure]. }
  intros present. apply alike_when. apply alike_try_catch.
  - apply alike_bind; [apply alike_unlink|intros _; apply alike_console].
  - intros e. apply alike_console.
Qed.

Lemma alike_POST_finally :
  alike (POST_finally (with_token env t)) (POST_finally env).
Proof.
  intros s s' Hs. unfold POST_finally, mbind, M_bind, bind, get_state.
  destruct Hs as (Hf & Ht & Hi & Ho). rewrite Hi.
  destruct (alike_cleanup_one "input" (st_tempFilePath s') s s') as [E Hw];
    [by repeat split|].
  destruct (cleanup_one (with_token env t) "input" (st_tempFilePath s') s) as [c s1],
           (cleanup_one env "input" (st_tempFilePath s') s') as [c' s1'].
  simpl in *. subst c'. destruct c; [|done..].
  destruct Hw as (Hf1 & Ht1 & Hi1 & Ho1). rewrite Ho1.
  apply alike_cleanup_one. by repeat split.
Qed.

(** X7: when the form does not ask for diarization, the value of
    [HUGGING_FACE_TOKEN] has no influence on the request: the response,
    the files left behind and the system calls made are the same for
    every value of the variable.  (The console is left out: the log line
    of line 116 looks for the token in the command.) *)
Theorem token_unused_without_diarization request f form :
  req_formData request = inl form →
  fd_diarize form ≠ Some "true" →
  fst (POST (with_token env t) request (initial f)) = fst (POST env request (initial f))
  ∧ st_fs (snd (POST (with_token env t) request (initial f)))
    = st_fs (snd (POST env request (initial f)))
  ∧ st_trace (snd (POST (with_token env t) request (initial f)))
    = st_trace (snd (POST env request (initial f))).
Proof.
  intros Hform Hd. unfold POST.
  destruct (alike_try_finally _ _ _ _ (alike_POST_body request form Hform Hd)
              alike_POST_finally (declare_paths (initial f)) (declare_paths (initial f)))
    as [E (Hf & Ht & _)]; [apply same_world_refl|].
  destruct (try_finally (POST_body (with_token env t) request)
              (POST_finally (with_token env t)) (declare_paths (initial f))) as [c s1].
  destruct (try_finally (POST_body env request) (POST_finally env)
              (declare_paths (initial f))) as [c' s1'].
  simpl in *. by subst c'.
Qed.

End TokenUnused.

(** ** The responses of the handler *)

Section Answers.

Context {JSON : Type}.

Lemma answers_pure {A} P (a : A) : answers (JSON := JSON) P (pure a).
Proof. by intros s r s1. Qed.

Lemma answers_throw {A} P e : answers (JSON := JSON) (A := A) P (throw e).
Proof. by intros s r s1. Qed.

Lemma answers_return {A} (P : Response JSON → Prop) r :
  P r → answers (A := A) P (return_ r).
Proof. by intros H s r' s1 [= <- _]. Qed.

Lemma answers_modify P g : answers (JSON := JSON) P (modify g).
Proof. by intros s r s1. Qed.

Lemma answers_bind {A B} P (m : M JSON A) (k : A → M JSON B) :
  answers P m → (∀ a, answers P (k a)) → answers P (bind m k).
Proof.
  intros Hm Hk s r s2. unfold bind.
  destruct (m s) as [[a|r'|e] s1] eqn:E; [apply Hk| |done].
  intros [= <- _]. by eapply Hm.
Qed.

Lemma answers_try_catch {A} P (m : M JSON A) h :
  answers P m → (∀ e, answers P (h e)) → answers P (try_catch m h).
Proof.
  intros Hm Hh s r s2. unfold try_catch.
  destruct (m s) as [[a|r'|e] s1] eqn:E; [done| |apply Hh].
  intros [= <- _]. by eapply Hm.
Qed.

Lemma answers_when P b (m : M JSON unit) : answers P m → answers P (when b m).
Proof. intros H. destruct b; [done|apply answers_pure]. Qed.

Lemma answers_console P lvl args : answers (JSON := JSON) P (console lvl args).
Proof. apply answers_modify. Qed.

Lemma answers_existsSync P p : answers (JSON := JSON) P (existsSync p).
Proof. by intros s r s1. Qed.

End Answers.

Section AnswersOfCalls.

Context {JSON : Type} (env : Env JSON) (P : Response JSON → Prop).

Lemma answers_mkdirSync p : answers P (mkdirSync env p).
Proof.
  intros s r s1. unfold mkdirSync. unfold_calls.
  by destruct (env_mkdir_error env p).
Qed.

Lemma answers_writeFile p data : answers P (writeFile env p data).
Proof.
  intros s r s1. unfold writeFile. unfold_calls.
  by destruct (st_fs s !! p) as [[|d]|], (env_writeFile env p) as [|msg [d'|]].
Qed.

Lemma answers_readFile p : answers P (readFile env p).
Proof.
  intros s r s1. unfold readFile. unfold_calls. simpl.
  destruct (st_fs s !! p) as [[|d]|]; [done| |done].
  by destruct (env_readFile_error env p).
Qed.

Lemma answers_execPromise cmd opts : answers P (execPromise env cmd opts).
Proof.
  intros s r s1. unfold execPromise. unfold_calls. simpl.
  by destruct (env_exec env cmd opts (st_fs s)) as [[out err|e] f2].
Qed.

Lemma answers_JSON_parse text : answers P (JSON_parse env text).
Proof.
  intros s r s1. unfold JSON_parse. by destruct (env_JSON_parse env text).
Qed.

Lemma answers_findPythonExecutable_from cands :
  answers P (findPythonExecutable_from env cands).
Proof.
  induction cands as [|cmd rest IH]; simpl.
  - apply answers_bind; [apply answers_console|intros _; apply answers_throw].
  - apply answers_try_catch; [|done].
    apply answers_bind; [apply answers_execPromise|intros _].
    apply answers_bind; [apply answers_console|intros _; apply answers_pure].
Qed.

End AnswersOfCalls.

Section AnswersOfPOST.

Context {JSON : Type} (env : Env JSON).

Lemma answers_stage request : answers expected (stage env request).
Proof.
  unfold stage. apply answers_bind.
  { intros s r s1. unfold formData. by destruct (req_formData request). }
  intros form. cbv zeta. destruct (fd_mediaFile form) as [mf|].
  2: { apply answers_return. right. by left. }
  apply answers_bind; [apply answers_when, answers_modify|intros _].
  apply answers_bind; [apply answers_existsSync|intros present].
  apply answers_bind; [apply answers_when, answers_mkdirSync|intros _].
  apply answers_bind; [apply answers_modify|intros _].
  apply answers_bind; [apply answers_writeFile|intros _].
  apply answers_bind; [apply answers_console|intros _].
  apply answers_bind; [apply answers_modify|intros _].
  apply answers_bind; [apply answers_findPythonExecutable_from|intros py].
  apply answers_pure.
Qed.

Lemma answers_run_engine cmd output : answers expected (run_engine env cmd output).
Proof.
  unfold run_engine. apply answers_try_catch.
  - apply answers_bind; [apply answers_execPromise|intros [stdout stderr]].
    apply answers_bind; [apply answers_when, answers_console|intros _].
    apply answers_bind; [apply answers_console|intros _].
    apply answers_bind; [apply answers_existsSync|intros created].
    destruct (negb created).
    + apply answers_bind; [apply answers_console|intros _].
      apply answers_bind; [apply answers_console|intros _].
      apply answers_return. do 3 right. left. eauto.
    + apply answers_bind; [apply answers_readFile|intros text].
      apply answers_bind; [apply answers_JSON_parse|intros v].
      apply answers_return. left. eauto.
  - intros e. apply answers_bind; [apply answers_console|intros _]. cbv zeta.
    apply answers_bind; [apply answers_existsSync|intros present].
    apply answers_bind.
    { destruct present; [|apply answers_pure].
      apply answers_try_catch; [|intros _; apply answers_pure].
      apply answers_bind; [apply answers_readFile|intros text; apply answers_pure]. }
    intros details. apply answers_return. do 4 right. left. eauto.
Qed.

Lemma answers_POST_body request : answers expected (POST_body env request).
Proof.
  unfold POST_body. apply answers_try_catch.
  - unfold POST_try. apply answers_bind; [apply answers_stage|intros job].
    apply answers_bind; [apply answers_existsSync|intros present].
    destruct (negb present).
    + apply answers_bind; [apply answers_console|intros _].
      apply answers_return. do 2 right. by left.
    + unfold launch. cbv zeta.
      apply answers_bind; [apply answers_when, answers_modify|intros _].
      apply answers_bind; [apply answers_console|intros _].
      apply answers_run_engine.
  - intros e. unfold POST_catch.
    apply answers_bind; [apply answers_console|intros _].
    apply answers_return. do 5 right. eauto.
Qed.

(** X8: the handler answers every request, and its answer has one of
    six shapes: HTTP 200 with a transcription, HTTP 400 for a form
    without media file, or HTTP 500 with one of four error texts.  The
    promise never rejects and never resolves without a response. *)
Theorem POST_answers_in_six_shapes request f :
  ∃ r, fst (POST env request (initial f)) = Resolved (Some r) ∧ expected r.
Proof.
  destruct (POST_body_frame env request f) as ((r & Hr) & _).
  destruct (POST_finish env request f) as (s2 & -> & _).
  exists r. rewrite Hr. split; [done|].
  destruct (POST_body env request (initial f)) as [c s1] eqn:E.
  simpl in Hr. subst c. by eapply answers_POST_body.
Qed.

End AnswersOfPOST.

(** ** An upload that is itself a [.json] file *)

Section JsonUpload.

Context {JSON : Type} (env : Env JSON).

Lemma split_last_dot_none e : dot_free e = true → Path.split_last_dot e = None.
Proof.
  induction e as [|c e IH]; [done|]. simpl. intros [Hc He]%andb_true_iff.
  rewrite (IH He). apply negb_true_iff in Hc. by rewrite Hc.
Qed.

Lemma split_last_dot_ext pre e :
  dot_free e = true →
  Path.split_last_dot (pre +:+ String "." e) = Some (pre, String "." e).
Proof.
  intros He. induction pre as [|c pre IH].
  - rewrite append_nil_l. simpl. by rewrite (split_last_dot_none e He).
  - rewrite append_cons. simpl. by rewrite IH.
Qed.

(** X9: for a name without separators, the output artifact is the input
    artifact itself exactly when the last extension of the name is
    [.json]: the engine is then told to write its result over the
    upload. *)
Theorem output_is_input_for_json_uploads t n :
  slash_free n = true →
  (outputJsonPath_of env (tempFilePath_of env t n) = tempFilePath_of env t n
   ↔ n = stem n +:+ ".json")
  ∧ (∀ pre, n = pre +:+ ".json" →
       outputJsonPath_of env (tempFilePath_of env t n) = tempFilePath_of env t n).
Proof.
  intros Hn.
  assert (outputJsonPath_of env (tempFilePath_of env t n) = tempFilePath_of env t n
          ↔ n = stem n +:+ ".json") as Hiff.
  { rewrite outputJsonPath_shape, tempFilePath_shape by done. split.
    - intros E. by do 3 apply append_inv_head in E.
    - intros E. by rewrite <- E. }
  split; [done|]. intros pre ->. apply Hiff.
  unfold stem. by rewrite (split_last_dot_ext pre "json").
Qed.

End JsonUpload.

(** ** Quoting that holds *)

Section Quoting.

Context {JSON : Type} (env : Env JSON).

Lemma words_in_double w s rest :
  quote_safe s = true →
  Shell.words_go Shell.InDouble (Some w) (s +:+ Js.dquote +:+ rest)
  = Shell.words_go Shell.Plain (Some (w +:+ s)) rest.
Proof.
  revert w. induction s as [|c s IH]; intros w Hs.
  - by rewrite append_nil_l, append_empty.
  - simpl in Hs. apply andb_true_iff in Hs as [Hc Hs].
    apply negb_true_iff in Hc. unfold Shell.escapable_in_double in Hc.
    apply orb_false_iff in Hc as [Hc _]. apply orb_false_iff in Hc as [Hc _].
    apply orb_false_iff in Hc as [Hq Hb].
    rewrite append_cons. cbn [Shell.words_go]. rewrite Hq, Hb.
    unfold Shell.snoc. cbn [default]. rewrite (IH _ Hs).
    by rewrite append_assoc.
Qed.

Lemma words_quoted cur s rest :
  quote_safe s = true →
  Shell.words_go Shell.Plain cur (quoted s +:+ rest)
  = Shell.words_go Shell.Plain (Some (default "" cur +:+ s)) rest.
Proof.
  intros Hs. unfold quoted. rewrite !append_assoc.
  change (Js.dquote +:+ ?x) with (String "034" x).
  cbn [Shell.words_go Shell.is_blank Shell.is_dquote Ascii.eqb Bool.eqb orb].
  by apply words_in_double.
Qed.

(** X10: paths and token without a double quote, a backslash, a dollar
    sign or a backquote stay whole: the shell cuts the command line into
    the interpreter, the script, the two options with their paths, and
    the flags of the request, blanks in the paths notwithstanding. *)
Theorem quoting_keeps_safe_paths_whole py input output diarize hfToken :
  quote_safe py = true →
  quote_safe (scriptPath env) = true →
  quote_safe input = true →
  quote_safe output = true →
  (∀ tok, hfToken = Some tok → quote_safe tok = true) →
  Shell.words (command env py input output diarize hfToken)
  = [py; scriptPath env; "--input"; input; "--output-json"; output]
    ++ (if diarize then
          "--diarize" ::
          match hfToken with
          | Some tok => if Js.truthy tok then ["--hf-token"; tok] else []
          | None => []
          end
        else []).
Proof.
  intros Hpy Hsc Hin Hout Htok.
  assert (∀ rest, Shell.words (quoted py +:+ " " +:+ quoted (scriptPath env) +:+ " "
                   +:+ ("--input " +:+ quoted input) +:+ " "
                   +:+ ("--output-json " +:+ quoted output) +:+ rest)
                  = [py; scriptPath env; "--input"; input; "--output-json"]
                    ++ Shell.words_go Shell.Plain (Some output) rest) as Hfour.
  { intros rest. unfold Shell.words.
    rewrite words_quoted by done. cbn [default]. rewrite append_nil_l.
    change (Shell.words_go Shell.Plain (Some py) (" " +:+ ?x))
      with (py :: Shell.words_go Shell.Plain None x).
    rewrite words_quoted by done. cbn [default]. rewrite append_nil_l.
    change (Shell.words_go Shell.Plain (Some (scriptPath env)) (" " +:+ ?x))
      with (scriptPath env :: Shell.words_go Shell.Plain None x).
    rewrite ?append_assoc.
    change (Shell.words_go Shell.Plain None ("--input " +:+ ?x))
      with ("--input" :: Shell.words_go Shell.Plain None x).
    rewrite words_quoted by done. cbn [default]. rewrite append_nil_l.
    change (Shell.words_go Shell.Plain (Some input) (" " +:+ ?x))
      with (input :: Shell.words_go Shell.Plain None x).
    change (Shell.words_go Shell.Plain None ("--output-json " +:+ ?x))
      with ("--output-json" :: Shell.words_go Shell.Plain None x).
    rewrite words_quoted by done. cbn [default]. by rewrite append_nil_l. }
  unfold command, commandParts.
  destruct diarize; [destruct hfToken as [tok|]; [destruct (Js.truthy tok) eqn:Ht|]|].
  - etransitivity; [exact (Hfour (" --diarize --hf-token " +:+ quoted tok))|].
    change (Shell.words_go Shell.Plain (Some output) (" --diarize --hf-token " +:+ ?x))
      with (output :: "--diarize" :: "--hf-token" :: Shell.words_go Shell.Plain None x).
    rewrite <- (append_empty (quoted tok)).
    rewrite words_quoted by by apply Htok. cbn [default]. by rewrite append_nil_l.
  - etransitivity; [exact (Hfour " --diarize")|done].
  - etransitivity; [exact (Hfour " --diarize")|done].
  - pose proof (Hfour "") as H. rewrite append_empty in H.
    etransitivity; [exact H|done].
Qed.

End Quoting.

(** ** More sample runs *)

Lemma no_media_file_is_400_sample :
  POST (sample_env None (engine_writes "true"))
       {| req_formData := inl {| fd_mediaFile := None; fd_diarize := Some "true" |} |}
       (initial sample_fs)
  = (Resolved (Some (respond 400 (ErrorBody "No media file uploaded" None))),
     initial sample_fs).
Proof.
  apply (no_media_file_is_400 (sample_env None (engine_writes "true")) _ sample_fs
           {| fd_mediaFile := None; fd_diarize := Some "true" |}).
  - reflexivity.
  - reflexivity.
Defined.

Lemma rejected_form_is_500_sample :
  fst (POST (sample_env None (engine_writes "true"))
            {| req_formData := inr (PlainError "TypeError" "Failed to parse body as FormData.") |}
            (initial sample_fs))
  = Resolved (Some (respond 500
      (ErrorBody "An unexpected error occurred."
                 (Some "Failed to parse body as FormData.")))).
Proof.
  rewrite (rejected_form_is_500 (sample_env None (engine_writes "true")) _ sample_fs
             (PlainError "TypeError" "Failed to parse body as FormData.")).
  - reflexivity.
  - reflexivity.
Defined.

Lemma invalid_json_is_an_execution_failure_sample :
  fst (POST (sample_env None (engine_writes "[1, 2"))
            (sample_request "a.wav" None) (initial sample_fs))
  = Resolved (Some (respond 500
      (ErrorBody "Failed to execute transcription script."
         (Some ("Unexpected token" +:+ Js.nl +:+ "Partial output: " +:+ "[1, 2"))))).
Proof.
  apply (invalid_json_is_an_execution_failure
           (sample_env None (engine_writes "[1, 2"))
           (sample_request "a.wav" None) sample_fs (sample_job false)
           (snd (stage (sample_env None (engine_writes "[1, 2"))
                       (sample_request "a.wav" None) (initial sample_fs)))
           "done" ""
           (<["/tmp/whisper-uploads/1-a.json" := File "[1, 2"]>
              (st_fs (snd (stage (sample_env None (engine_writes "[1, 2"))
                                 (sample_request "a.wav" None) (initial sample_fs)))))
           "[1, 2" "Unexpected token").
  - reflexivity.
  - apply (bool_decide_unpack _). vm_compute. exact I.
  - reflexivity.
  - reflexivity.
  - reflexivity.
  - reflexivity.
Defined.

Lemma unreadable_output_is_an_execution_failure_sample :
  let env := with_readFile_error (sample_env None (engine_writes "true"))
               (λ _, Some "EACCES: permission denied") in
  fst (POST env (sample_request "a.wav" None) (initial sample_fs))
  = Resolved (Some (respond 500
      (ErrorBody "Failed to execute transcription script."
                 (Some "EACCES: permission denied")))).
Proof.
  intros env.
  apply (unreadable_output_is_an_execution_failure env
           (sample_request "a.wav" None) sample_fs (sample_job false)
           (snd (stage env (sample_request "a.wav" None) (initial sample_fs)))
           "done" ""
           (<["/tmp/whisper-uploads/1-a.json" := File "true"]>
              (st_fs (snd (stage env (sample_request "a.wav" None) (initial sample_fs)))))
           "true" "EACCES: permission denied").
  - reflexivity.
  - apply (bool_decide_unpack _). vm_compute. exact I.
  - reflexivity.
  - reflexivity.
  - reflexivity.
Defined.

Lemma cleanup_removes_the_artifacts_only_sample :
  let env := sample_env None (engine_writes "true") in
  let request := sample_request "a.wav" None in
  let after := snd (POST env request (initial sample_fs)) in
  st_fs after !! "/app/src/whisper/transcribe.py" = Some (File "import whisper")
  ∧ st_fs after !! "/tmp/whisper-uploads/1-a.wav" = None
  ∧ st_fs after !! "/tmp/whisper-uploads/1-a.json" = None.
Proof.
  intros env request after.
  destruct (cleanup_removes_the_artifacts_only env request sample_fs
              {| fd_mediaFile := Some {| mf_name := "a.wav"; mf_data := "RIFF" |};
                 fd_diarize := None |}
              {| mf_name := "a.wav"; mf_data := "RIFF" |})
    as (Hframe & Hgone).
  - reflexivity.
  - reflexivity.
  - vm_compute. do 1 constructor. constructor.
  - split; [|split].
    + etransitivity; [apply Hframe|vm_compute; reflexivity].
      * intros E. vm_compute in E. discriminate E.
      * intros E. vm_compute in E. discriminate E.
    + apply (Hgone _ "RIFF"); [by left|vm_compute; reflexivity|reflexivity].
    + apply (Hgone _ "true"); [by right|vm_compute; reflexivity|reflexivity].
Defined.

Lemma token_unused_without_diarization_sample :
  let env := sample_env None (engine_writes "true") in
  let request := sample_request "a.wav" (Some "false") in
  fst (POST (with_token env (Some "hf_secret")) request (initial sample_fs))
    = fst (POST env request (initial sample_fs))
  ∧ st_fs (snd (POST (with_token env (Some "hf_secret")) request (initial sample_fs)))
    = st_fs (snd (POST env request (initial sample_fs)))
  ∧ st_trace (snd (POST (with_token env (Some "hf_secret")) request (initial sample_fs)))
    = st_trace (snd (POST env request (initial sample_fs))).
Proof.
  apply (token_unused_without_diarization
           (sample_env None (engine_writes "true")) (Some "hf_secret")
           (sample_request "a.wav" (Some "false")) sample_fs
           {| fd_mediaFile := Some {| mf_name := "a.wav"; mf_data := "RIFF" |};
              fd_diarize := Some "false" |}).
  - reflexivity.
  - discriminate.
Defined.

Lemma output_is_input_for_json_uploads_sample :
  let env := sample_env None (engine_writes "true") in
  outputJsonPath_of env (tempFilePath_of env 1 "talk.json")
  = tempFilePath_of env 1 "talk.json".
Proof.
  intros env.
  destruct (output_is_input_for_json_uploads env 1 "talk.json") as [_ H].
  - reflexivity.
  - by apply (H "talk").
Defined.

Lemma quoting_keeps_safe_paths_whole_sample :
  let env := sample_env None (engine_writes "true") in
  Shell.words (command env "python3" "/tmp/whisper-uploads/1-my talk.wav"
                 "/tmp/whisper-uploads/1-my talk.json" true (Some "hf_secret"))
  = [ "python3"; "/app/src/whisper/transcribe.py";
      "--input"; "/tmp/whisper-uploads/1-my talk.wav";
      "--output-json"; "/tmp/whisper-uploads/1-my talk.json";
      "--diarize"; "--hf-token"; "hf_secret" ].
Proof.
  apply (quoting_keeps_safe_paths_whole (sample_env None (engine_writes "true"))
           "python3" "/tmp/whisper-uploads/1-my talk.wav"
           "/tmp/whisper-uploads/1-my talk.json" true (Some "hf_secret")).
  - reflexivity.
  - reflexivity.
  - reflexivity.
  - reflexivity.
  - by intros tok [= <-].
Defined.

Lemma thrown_in_first_half_is_500_sample :
  let request := sample_request "a.wav" None in
  fst (POST bare_env request (initial sample_fs))
  = Resolved (Some (respond 500
      (ErrorBody "An unexpected error occurred."
                 (Some "Python executable not found."))))
  ∧ (∀ cmd o, EvExec cmd o ∈ st_trace (snd (POST bare_env request (initial sample_fs))) →
       o = None ∧ ∃ cand, cand ∈ candidates ∧ cmd = probe_command cand).
Proof.
  intros request.
  destruct (thrown_in_first_half_is_500 bare_env request sample_fs
              (PlainError "Error" "Python executable not found.")
              (snd (stage bare_env request (initial sample_fs))))
    as (Hresp & _ & Hexec).
  - reflexivity.
  - split; [exact Hresp|exact Hexec].
Defined.
